(** * Marginalia report build system: directive parser and python-docx engine

    A shallow embedding of

    - [directives/parser.py]       ([Directive], [parse_directives]),
    - [directives/docx_helpers.py] ([make_seq_field], [make_ref_field],
                                    [latex_to_omml]),
    - [engines/docx_engine.py]     ([DocxEngine._render_markdown] and the
                                    insertion helpers it calls),

    followed by the properties of the directive language that the
    specification states about them.

    Conventions.  A Python [str] is a Rocq [string].  The character classes
    of Python ([str.isspace], the regex classes [\s] and [\w],
    [str.lower]) are given on the ASCII range; a byte above 127 stands for
    a piece of a non-ASCII character and is neither white space nor a word
    character.  The two CJK glyphs the engine writes into captions are
    carried as their UTF-8 bytes.  Python integers are [nat]. *)

From Equations Require Import Equations.
From Stdlib Require Import Ascii String DecimalString.
From stdpp Require Import gmap strings list fin_maps.

Local Open Scope string_scope.
Local Open Scope list_scope.
Local Open Scope nat_scope.

(* ===================================================================== *)
(** * Python string primitives *)
(* ===================================================================== *)

Module Py.

Definition code (c : ascii) : nat := nat_of_ascii c.

(** [str.isspace] on one character: TAB, LF, VT, FF, CR, FS, GS, RS, US
    and the space. *)
Definition isspace (c : ascii) : bool :=
  let n := code c in
  ((9 <=? n) && (n <=? 13)) || ((28 <=? n) && (n <=? 32)).

Definition isupper (c : ascii) : bool :=
  let n := code c in (65 <=? n) && (n <=? 90).

Definition islower (c : ascii) : bool :=
  let n := code c in (97 <=? n) && (n <=? 122).

Definition isdigit (c : ascii) : bool :=
  let n := code c in (48 <=? n) && (n <=? 57).

(** The regex class [\w]. *)
Definition isword (c : ascii) : bool :=
  isupper c || islower c || isdigit c || Ascii.eqb c "_".

Definition lower_char (c : ascii) : ascii :=
  if isupper c then ascii_of_nat (code c + 32) else c.

(** [s.lower()] *)
Fixpoint lower (s : string) : string :=
  match s with
  | EmptyString => EmptyString
  | String c s' => String (lower_char c) (lower s')
  end.

(** [s.lstrip(chars)], with the set of characters as a predicate. *)
Fixpoint lstrip_by (p : ascii -> bool) (s : string) : string :=
  match s with
  | EmptyString => EmptyString
  | String c s' => if p c then lstrip_by p s' else s
  end.

(** [s.rstrip(chars)] *)
Fixpoint rstrip_by (p : ascii -> bool) (s : string) : string :=
  match s with
  | EmptyString => EmptyString
  | String c s' =>
      match rstrip_by p s' with
      | EmptyString => if p c then EmptyString else String c EmptyString
      | r => String c r
      end
  end.

Definition strip_by (p : ascii -> bool) (s : string) : string :=
  rstrip_by p (lstrip_by p s).

(** [s.strip()] *)
Definition strip (s : string) : string := strip_by isspace s.

(** [s.strip(c)] for a one-character argument. *)
Definition strip_char (c : ascii) (s : string) : string :=
  strip_by (Ascii.eqb c) s.

(** [s.split(sep)] for a one-character separator: never the empty list. *)
Fixpoint split (sep : ascii) (s : string) : list string :=
  match s with
  | EmptyString => [EmptyString]
  | String c s' =>
      if Ascii.eqb c sep then EmptyString :: split sep s'
      else match split sep s' with
           | x :: r => String c x :: r
           | [] => [String c EmptyString]
           end
  end.

(** [sep.join(parts)] *)
Fixpoint join (sep : string) (parts : list string) : string :=
  match parts with
  | [] => EmptyString
  | [x] => x
  | x :: r => x +:+ sep +:+ join sep r
  end.

(** [s.count(c)] for a one-character argument. *)
Fixpoint count (c : ascii) (s : string) : nat :=
  match s with
  | EmptyString => 0
  | String a s' => (if Ascii.eqb a c then 1 else 0) + count c s'
  end.

(** [s.replace(c, '')] for a one-character [c]. *)
Fixpoint remove_char (c : ascii) (s : string) : string :=
  match s with
  | EmptyString => EmptyString
  | String a s' =>
      if Ascii.eqb a c then remove_char c s' else String a (remove_char c s')
  end.

(** [s.startswith(p)] *)
Definition startswith (p s : string) : bool := String.prefix p s.

(** [s.endswith(p)] *)
Definition endswith (p s : string) : bool :=
  (String.length p <=? String.length s) &&
  String.eqb (String.substring (String.length s - String.length p)
                               (String.length p) s) p.

(** The slice [s[a:-b]] for literal [a] and [b]. *)
Definition slice_inner (a b : nat) (s : string) : string :=
  String.substring a (String.length s - b - a) s.

(** [s.find(p, start)]: the least index at or after [start] where [p]
    occurs, [None] for Python's [-1]. *)
Fixpoint find_from (p s : string) (skip pos : nat) : option nat :=
  match skip with
  | S k =>
      match s with
      | EmptyString => None
      | String _ s' => find_from p s' k (S pos)
      end
  | 0 =>
      if String.prefix p s then Some pos
      else match s with
           | EmptyString => None
           | String _ s' => find_from p s' 0 (S pos)
           end
  end.

Definition find (p s : string) (start : nat) : option nat :=
  find_from p s start 0.

(** The slice [s[n:]]. *)
Definition drop (n : nat) (s : string) : string :=
  String.substring n (String.length s - n) s.

(** Truth value of a string: non-empty. *)
Definition truthy (s : string) : bool :=
  match s with EmptyString => false | _ => true end.

(** [x or ''] for an [Optional[str]]. *)
Definition or_empty (o : option string) : string :=
  match o with Some s => s | None => EmptyString end.

(** Truth value of an [Optional[str]]: present and non-empty. *)
Definition truthy_opt (o : option string) : bool :=
  match o with Some s => truthy s | None => false end.

(** [str(n)] for a non-negative integer. *)
Definition str_of_nat (n : nat) : string :=
  NilEmpty.string_of_uint (Nat.to_uint n).

End Py.

(* ===================================================================== *)
(** * A backtracking matcher for the regular expressions of the source *)
(* ===================================================================== *)

(** Python's [re] is a backtracking matcher: alternatives are tried left
    to right, a greedy repetition takes as much as it can and gives back
    one character at a time, a lazy one takes as little as it can.  Every
    repetition in the source ranges over a single character class, so
    repetition is modelled on classes only. *)

Module Re.

Inductive regex : Type :=
| Lit (s : string)                                  (* literal text   *)
| Cls (p : ascii -> bool)                           (* one character  *)
| Rep (greedy : bool) (lo : nat) (hi : option nat)
      (p : ascii -> bool)                           (* p{lo,hi}       *)
| Seq (r1 r2 : regex)
| Alt (r1 r2 : regex)                               (* r1|r2          *)
| Opt (r : regex)                                   (* (?:r)?         *)
| Grp (n : nat) (r : regex)                         (* capture group  *)
| Eol.                                              (* $              *)

(** The groups that took part in a match, by number. *)
Definition groups : Type := gmap nat string.

(** A match in progress: the text still to read and the groups so far. *)
Definition cont (A : Type) : Type := string -> groups -> option A.

Definition hi_allows (hi : option nat) : bool :=
  match hi with Some 0 => false | _ => true end.

Definition hi_pred (hi : option nat) : option nat :=
  match hi with Some n => Some (pred n) | None => None end.

(** [p{lo,hi}] followed by [k]: one more character of the class, or
    stop here once [lo] characters were taken; a greedy repetition tries
    the first before the second, a lazy one the second before the first. *)
Fixpoint rep {A} (greedy : bool) (p : ascii -> bool) (lo : nat)
         (hi : option nat) (s : string) (k : string -> option A)
  : option A :=
  let stop (_ : unit) := match lo with 0 => k s | S _ => None end in
  let more (_ : unit) :=
    match s with
    | String c s' =>
        if p c && hi_allows hi
        then rep greedy p (pred lo) (hi_pred hi) s' k
        else None
    | EmptyString => None
    end in
  if greedy
  then match more tt with Some r => Some r | None => stop tt end
  else match stop tt with Some r => Some r | None => more tt end.

(** What [r] consumed when it was entered at [s] and left at [s']. *)
Definition consumed (s s' : string) : string :=
  String.substring 0 (String.length s - String.length s') s.

Fixpoint exec {A} (r : regex) (s : string) (g : groups) (k : cont A)
  : option A :=
  match r with
  | Lit l =>
      if String.prefix l s then k (Py.drop (String.length l) s) g else None
  | Cls p =>
      match s with
      | String c s' => if p c then k s' g else None
      | EmptyString => None
      end
  | Rep greedy lo hi p => rep greedy p lo hi s (fun s' => k s' g)
  | Seq r1 r2 => exec r1 s g (fun s' g' => exec r2 s' g' k)
  | Alt r1 r2 =>
      match exec r1 s g k with
      | Some x => Some x
      | None => exec r2 s g k
      end
  | Opt r1 =>
      match exec r1 s g k with
      | Some x => Some x
      | None => k s g
      end
  | Grp n r1 => exec r1 s g (fun s' g' => k s' (<[n := consumed s s']> g'))
  | Eol =>
      (* end of text, or just before a final newline *)
      if String.eqb s "" || String.eqb s (String "010" "") then k s g
      else None
  end.

Record found : Type := Found {
  before : string;     (* text in front of the match *)
  matched : string;    (* group 0                    *)
  after : string;      (* text behind the match      *)
  group : groups;
}.

(** [re.match(r, s)]: a match at the start of [s]. *)
Definition match_ (r : regex) (s : string) : option found :=
  exec r s ∅ (fun s' g => Some (Found "" (consumed s s') s' g)).

(** [re.search(r, s)]: the leftmost match, start positions [0..len(s)]. *)
Fixpoint search_from (r : regex) (pre s : string) : option found :=
  match exec r s ∅ (fun s' g => Some (Found pre (consumed s s') s' g)) with
  | Some m => Some m
  | None =>
      match s with
      | String c s' => search_from r (pre +:+ String c "") s'
      | EmptyString => None
      end
  end.

Definition search (r : regex) (s : string) : option found :=
  search_from r "" s.

(** [re.split(r, s)] for a pattern that is a single capture group
    matching no empty text: text, match, text, match, ..., text.  The
    bound is the length of [s], since every match takes a character. *)
Fixpoint split_from (n : nat) (r : regex) (s : string) : list string :=
  match n with
  | 0 => [s]
  | S n' =>
      match search r s with
      | Some m => before m :: matched m :: split_from n' r (after m)
      | None => [s]
      end
  end.

Definition split (r : regex) (s : string) : list string :=
  split_from (String.length s) r s.

(** Sequences of several parts. *)
Fixpoint seq (rs : list regex) : regex :=
  match rs with
  | [] => Lit ""
  | [r] => r
  | r :: rs' => Seq r (seq rs')
  end.

Definition star (p : ascii -> bool) : regex := Rep true 0 None p.
Definition plus (p : ascii -> bool) : regex := Rep true 1 None p.
Definition lazy_plus (p : ascii -> bool) : regex := Rep false 1 None p.
Definition chr (c : ascii) : ascii -> bool := Ascii.eqb c.
Definition not_chr (c : ascii) : ascii -> bool := fun a => negb (Ascii.eqb c a).
(** [.] under DOTALL. *)
Definition any : ascii -> bool := fun _ => true.
(** [.] without DOTALL: anything but a newline. *)
Definition dot : ascii -> bool := not_chr "010".

End Re.

(* ===================================================================== *)
(** * directives/parser.py *)
(* ===================================================================== *)

Module Parser.

Inductive DirectiveType : Type :=
| FIGURE | EQUATION | TABLE | TABLE_END | ALGORITHM | ALGORITHM_END
| REF | PAGEBREAK | RAW_DOCX | RAW_DOCX_END | STYLE.

#[export] Instance DirectiveType_eq_dec : EqDecision DirectiveType.
Proof. solve_decision. Defined.

(** The value of an enumeration member. *)
Definition value (t : DirectiveType) : string :=
  match t with
  | FIGURE => "figure"
  | EQUATION => "equation"
  | TABLE => "table"
  | TABLE_END => "/table"
  | ALGORITHM => "algorithm"
  | ALGORITHM_END => "/algorithm"
  | REF => "ref"
  | PAGEBREAK => "pagebreak"
  | RAW_DOCX => "raw-docx"
  | RAW_DOCX_END => "/raw-docx"
  | STYLE => "style"
  end.

Definition members : list DirectiveType :=
  [FIGURE; EQUATION; TABLE; TABLE_END; ALGORITHM; ALGORITHM_END;
   REF; PAGEBREAK; RAW_DOCX; RAW_DOCX_END; STYLE].

(** [DirectiveType(name)]: the member with that value, if any. *)
Definition of_value (name : string) : option DirectiveType :=
  List.find (fun t => String.eqb (value t) name) members.

Record Directive : Type := mkDirective {
  type : DirectiveType;
  args : list string;
  body : option string;   (* for block directives *)
  line : nat;             (* source line number, from 1 *)
}.

#[export] Instance Directive_eq_dec : EqDecision Directive.
Proof. solve_decision. Defined.

(** [args[n].strip() if len(args) > n else None] *)
Definition arg (n : nat) (d : Directive) : option string :=
  Py.strip <$> args d !! n.

Definition label (d : Directive) : option string := arg 0 d.

Definition path (d : Directive) : option string := arg 1 d.

Definition caption (d : Directive) : option string :=
  match type d with
  | FIGURE => arg 2 d
  | TABLE | ALGORITHM => arg 1 d
  | _ => None
  end.

Definition width (d : Directive) : option string := arg 3 d.

Definition latex (d : Directive) : option string := arg 1 d.

Definition style_name (d : Directive) : option string := arg 0 d.

Definition style_text (d : Directive) : option string := arg 1 d.

(** The pattern of a tag, compiled with DOTALL: the opening [<!--], white
    space, group 1 (an optional [/], a word character, then word
    characters and dashes), optionally a colon between white space and
    group 2 (one or more characters, as few as possible), white space and
    the closing [-->]. *)
Definition _DIRECTIVE_RE : Re.regex :=
  Re.seq
    [ Re.Lit "<!--"; Re.star Py.isspace;
      Re.Grp 1 (Re.seq [ Re.Opt (Re.Lit "/"); Re.Cls Py.isword;
                         Re.star (fun c => Py.isword c || Ascii.eqb c "-") ]);
      Re.Opt (Re.seq [ Re.star Py.isspace; Re.Lit ":"; Re.star Py.isspace;
                       Re.Grp 2 (Re.lazy_plus Re.any) ]);
      Re.star Py.isspace; Re.Lit "-->" ].

(** [_BLOCK_END_MAP.get(name)] *)
Definition _BLOCK_END_MAP (name : string) : option string :=
  if String.eqb name "table" then Some "/table"
  else if String.eqb name "algorithm" then Some "/algorithm"
  else if String.eqb name "raw-docx" then Some "/raw-docx"
  else None.

(** [m.group(1).strip().lower()] of the first tag on a line. *)
Definition tag_name (l : string) : option string :=
  match Re.search _DIRECTIVE_RE l with
  | Some m => Some (Py.lower (Py.strip (Py.or_empty (Re.group m !! 1))))
  | None => None
  end.

(** [m.group(2) or ''] of the first tag on a line. *)
Definition tag_raw_args (l : string) : string :=
  match Re.search _DIRECTIVE_RE l with
  | Some m => Py.or_empty (Re.group m !! 2)
  | None => ""
  end.

(** [[a.strip() for a in raw_args.split('|')] if raw_args else []] *)
Definition split_args (raw_args : string) : list string :=
  if Py.truthy raw_args then Py.strip <$> Py.split "|" raw_args else [].

(** The test of the inner loop: the first tag of the line is [end_tag]. *)
Definition is_end (end_tag l : string) : bool :=
  match tag_name l with
  | Some n => String.eqb n end_tag
  | None => false
  end.

(** The inner loop of [parse_directives]: from line [j], whose suffix
    [lines[j:]] is [rest], collect lines up to the first end tag or the
    end of the text; returns [body_lines] and the final [j]. *)
Fixpoint scan_body (end_tag : string) (rest : list string) (j : nat)
         (body_lines : list string) : list string * nat :=
  match rest with
  | [] => (body_lines, j)
  | l :: rest' =>
      if is_end end_tag l then (body_lines, j)
      else scan_body end_tag rest' (S j) (body_lines ++ [l])
  end.

(** What one turn of the outer loop does at line index [i]. *)
Inductive turn : Type :=
| Skip                              (* no tag, or an unknown name *)
| Emit (d : Directive) (next : nat) (* a directive; the next index *).

Definition parse_line (lines : list string) (i : nat) : turn :=
  let l := nth i lines "" in
  match tag_name l with
  | None => Skip
  | Some name =>
      match of_value name with
      | None => Skip
      | Some dtype =>
          let args := split_args (tag_raw_args l) in
          match _BLOCK_END_MAP name with
          | Some end_tag =>
              let '(body_lines, j) :=
                scan_body end_tag (drop (i + 1) lines) (i + 1) [] in
              Emit (mkDirective dtype args
                                (Some (Py.join (String "010" "") body_lines))
                                (i + 1))
                   (j + 1)
          | None => Emit (mkDirective dtype args None (i + 1)) (i + 1)
          end
      end
  end.

Equations? parse_loop (lines : list string) (i : nat)
          (results : list Directive) : list Directive
  by wf (length lines - i) lt :=
  parse_loop lines i results with decide (i < length lines) => {
    | right _ => results
    | left _ with Equations.Prop.Logic.inspect (parse_line lines i) => {
        | exist _ Skip _ => parse_loop lines (i + 1) results
        | exist _ (Emit d next) E => parse_loop lines next (results ++ [d]) } }.
Proof.
  - lia.
  - assert (Hscan : forall e rest j acc, j <= (scan_body e rest j acc).2).
    { intros e rest. induction rest as [|x rest IH]; intros j acc; simpl.
      - lia.
      - destruct (is_end e x); simpl; [lia|].
        specialize (IH (S j) (acc ++ [x])). lia. }
    unfold parse_line in E.
    destruct (tag_name _); [|discriminate].
    destruct (of_value _); [|discriminate].
    destruct (_BLOCK_END_MAP _).
    + specialize (Hscan s0 (drop (i + 1) lines) (i + 1) []).
      destruct (scan_body _ _ _ _) as [bl j]. simpl in Hscan.
      injection E as _ <-. lia.
    + injection E as _ <-. lia.
Qed.

Definition parse_directives (text : string) : list Directive :=
  parse_loop (Py.split "010" text) 0 [].

End Parser.

(* ===================================================================== *)
(** * The document under construction *)
(* ===================================================================== *)

(** What the engine hands to python-docx and lxml, as data: the elements
    it places at the injection point of the document, in the order in
    which they are placed. *)

Module Docx.

(** An lxml element that comes from outside (OMML, a raw fragment). *)
Definition Element : Type := string.

Inductive Format : Type := Plain | Bold | Italic | Code.

(** The children of a paragraph that the engine creates. *)
Inductive Inline : Type :=
| Run (f : Format) (text : string)        (* add_run(text), formatted   *)
| PageBreak                               (* a run holding a page break *)
| Picture (file : string) (width : option string)
| FldChar (fldCharType : string)
| InstrText (text : string)
| BookmarkStart (name : string)
| BookmarkEnd (name : string)
| Math (el : Element).

Record Paragraph : Type := mkParagraph {
  style : option string;
  centered : bool;
  indent : option Z;       (* first-line indent, in points *)
  content : list Inline;
}.

Inductive Block : Type :=
| Para (p : Paragraph)
| Tbl (header : list string) (rows : list (list string))
| Raw (el : Element).

#[export] Instance Format_eq_dec : EqDecision Format.
Proof. solve_decision. Defined.
#[export] Instance Inline_eq_dec : EqDecision Inline.
Proof. solve_decision. Defined.
#[export] Instance Paragraph_eq_dec : EqDecision Paragraph.
Proof. solve_decision. Defined.
#[export] Instance Block_eq_dec : EqDecision Block.
Proof. solve_decision. Defined.

(** A paragraph of unformatted text, as [doc.add_paragraph(text)] makes
    it: no run at all for the empty text. *)
Definition text_content (text : string) : list Inline :=
  if Py.truthy text then [Run Plain text] else [].

(** The outcome of [etree.fromstring]. *)
Inductive parsed : Type :=
| Parsed (el : Element)
| XMLSyntaxError
| OtherError.

(** The world outside the engine, as far as rendering consults it. *)
Record Env : Type := mkEnv {
  path_exists : string -> bool;   (* Path.exists()                        *)
  picture_ok : string -> bool;    (* run.add_picture(path) does not raise *)
  width_ok : string -> bool;      (* float(s) / 100 * 6 and Inches(w)
                                     do not raise                         *)
  has_style : string -> bool;     (* the document has a style of this
                                     name; KeyError otherwise             *)
  fromstring : string -> parsed;  (* etree.fromstring                     *)
  pandoc : string -> option (option Element);
                                  (* the conversion bridge of
                                     latex_to_omml, its temporary files
                                     taken to be writable: None when a
                                     step of it raises, otherwise the
                                     first math element of the result,
                                     if any                               *)
}.

End Docx.

(* ===================================================================== *)
(** * directives/docx_helpers.py *)
(* ===================================================================== *)

Module DocxHelpers.
Import Docx.

(** [make_seq_field(seq_name, prefix, bookmark_name)].  The bookmark id
    is a hash of the name, so a bookmark is modelled by its name. *)
Definition make_seq_field (seq_name : string) (prefix : option string)
           (bookmark_name : option string) : list Inline :=
  (if Py.truthy_opt prefix
   then [Run Plain (Py.or_empty prefix +:+ "-")] else []) ++
  (match bookmark_name with
   | Some b => if Py.truthy b then [BookmarkStart b] else []
   | None => []
   end) ++
  [FldChar "begin"; InstrText (" SEQ " +:+ seq_name +:+ " ");
   FldChar "separate"; Run Plain "#"; FldChar "end"] ++
  (match bookmark_name with
   | Some b => if Py.truthy b then [BookmarkEnd b] else []
   | None => []
   end).

(** [make_ref_field(bookmark_name)] *)
Definition make_ref_field (bookmark_name : string) : list Inline :=
  [FldChar "begin"; InstrText (" REF " +:+ bookmark_name +:+ " \h ");
   FldChar "separate"; Run Plain "??"; FldChar "end"].

(** [latex_to_omml(latex_str)] on the module's cache [_omml_cache]: the
    result and the cache afterwards.  A cached entry, a failure included,
    is returned without running the converter. *)
Definition latex_to_omml (env : Env) (latex_str : string)
           (_omml_cache : gmap string (option Element))
  : option Element * gmap string (option Element) :=
  match _omml_cache !! latex_str with
  | Some cached => (cached, _omml_cache)
  | None =>
      match pandoc env latex_str with
      | Some math_el => (math_el, <[latex_str := math_el]> _omml_cache)
      | None => (None, <[latex_str := None]> _omml_cache)
      end
  end.

End DocxHelpers.

(* ===================================================================== *)
(** * engines/docx_engine.py *)
(* ===================================================================== *)

Module DocxEngine.
Import Parser Docx DocxHelpers.

(** The mutable state a build works on: the engine's counters and label
    map, the module-level conversion cache, and the elements placed in
    the document so far. *)
Record State : Type := mkState {
  _fig_counter : nat;
  _tbl_counter : nat;
  _eq_counter : nat;
  _alg_counter : nat;
  _labels : gmap string string;
  _omml_cache : gmap string (option Element);
  doc : list Block;
}.

(** [DocxEngine.__init__], with an empty cache and a new document. *)
Definition init : State := mkState 0 0 0 0 ∅ ∅ [].

(** A computation either returns or raises; the state survives both. *)
Inductive Res (A : Type) : Type :=
| Ok (a : A) (s : State)
| Raised (s : State).
Arguments Ok {A} a s.
Arguments Raised {A} s.

Definition M (A : Type) : Type := State -> Res A.

#[export] Instance M_ret : MRet M := fun A a s => Ok a s.
#[export] Instance M_bind : MBind M := fun A B f m s =>
  match m s with
  | Ok a s' => f a s'
  | Raised s' => Raised s'
  end.

Definition raise {A} : M A := fun s => Raised s.
Definition gets {A} (f : State -> A) : M A := fun s => Ok (f s) s.
Definition modify (f : State -> State) : M unit := fun s => Ok tt (f s).

Definition final_state {A} (r : Res A) : State :=
  match r with Ok _ s => s | Raised s => s end.

Definition set_fig (n : nat) (s : State) : State :=
  mkState n (_tbl_counter s) (_eq_counter s) (_alg_counter s)
          (_labels s) (_omml_cache s) (doc s).
Definition set_tbl (n : nat) (s : State) : State :=
  mkState (_fig_counter s) n (_eq_counter s) (_alg_counter s)
          (_labels s) (_omml_cache s) (doc s).
Definition set_eq (n : nat) (s : State) : State :=
  mkState (_fig_counter s) (_tbl_counter s) n (_alg_counter s)
          (_labels s) (_omml_cache s) (doc s).
Definition set_alg (n : nat) (s : State) : State :=
  mkState (_fig_counter s) (_tbl_counter s) (_eq_counter s) n
          (_labels s) (_omml_cache s) (doc s).
Definition set_labels (l : gmap string string) (s : State) : State :=
  mkState (_fig_counter s) (_tbl_counter s) (_eq_counter s) (_alg_counter s)
          l (_omml_cache s) (doc s).
Definition set_cache (c : gmap string (option Element)) (s : State) : State :=
  mkState (_fig_counter s) (_tbl_counter s) (_eq_counter s) (_alg_counter s)
          (_labels s) c (doc s).
Definition set_doc (d : list Block) (s : State) : State :=
  mkState (_fig_counter s) (_tbl_counter s) (_eq_counter s) (_alg_counter s)
          (_labels s) (_omml_cache s) d.

(** [self._labels[key] = text] *)
Definition label_store (key text : string) : M unit :=
  modify (fun s => set_labels (<[key := text]> (_labels s)) s).

(** [_move_paragraph], and the same insertion for tables and raw
    elements: before the reference element when there is one, at the end
    otherwise; either way behind everything placed before. *)
Definition place (b : Block) : M unit :=
  modify (fun s => set_doc (doc s ++ [b]) s).

(** The arguments of [_render_markdown] that configure a build. *)
Record Config : Type := mkConfig {
  chapter_prefix : option string;
  crossref_mode : string;
  first_line_indent : Z;
  page_break_before_h2 : bool;
  project_root : string;
}.

(** U+56F3 and U+8868, the glyphs in front of figure and table numbers. *)
Definition zu : string := "図".
Definition hyou : string := "表".

(** [Path(img_path)], made relative to the project root unless absolute;
    joining the empty path leaves the root as it is. *)
Definition resolve (root img_path : string) : string :=
  if Py.startswith "/" img_path then img_path
  else if Py.truthy img_path then root +:+ "/" +:+ img_path
  else root.

(** The three-or-more rule characters, anchored: a horizontal rule. *)
Definition rule_re : Re.regex :=
  Re.Seq (Re.Grp 1 (Re.Alt (Re.Rep true 3 None (Re.chr "-"))
                    (Re.Alt (Re.Rep true 3 None (Re.chr "*"))
                            (Re.Rep true 3 None (Re.chr "_")))))
         Re.Eol.

(** One to six [#], white space, the heading text up to the end. *)
Definition heading_re : Re.regex :=
  Re.seq [ Re.Grp 1 (Re.Rep true 1 (Some 6) (Re.chr "#"));
           Re.plus Py.isspace; Re.Grp 2 (Re.plus Re.dot); Re.Eol ].

(** A closing tag of a block directive at the start of the text. *)
Definition end_tag_re : Re.regex :=
  Re.seq [ Re.Lit "<!--"; Re.star Py.isspace; Re.Lit "/";
           Re.Alt (Re.Lit "table") (Re.Alt (Re.Lit "algorithm")
                                           (Re.Lit "raw-docx"));
           Re.star Py.isspace; Re.Lit "-->" ].

(** Bars, white space, dashes and colons only: a separator row. *)
Definition separator_re : Re.regex :=
  Re.Seq (Re.plus (fun c => Ascii.eqb c "|" || Py.isspace c ||
                            Ascii.eqb c "-" || Ascii.eqb c ":"))
         Re.Eol.

(** Bold, italic or code span, in this order of preference. *)
Definition markup_re : Re.regex :=
  Re.Grp 1
    (Re.Alt (Re.seq [Re.Lit "**"; Re.plus (Re.not_chr "*"); Re.Lit "**"])
    (Re.Alt (Re.seq [Re.Lit "*"; Re.plus (Re.not_chr "*"); Re.Lit "*"])
            (Re.seq [Re.Lit "`"; Re.plus (Re.not_chr "`"); Re.Lit "`"]))).

Definition is_match (r : Re.regex) (s : string) : bool :=
  match Re.match_ r s with Some _ => true | None => false end.

(** [_strip_front_matter] *)
Definition _strip_front_matter (text : string) : string :=
  if Py.startswith "---" text then
    match Py.find (String "010" "---") text 3 with
    | Some end_ => Py.lstrip_by (Ascii.eqb "010") (Py.drop (end_ + 4) text)
    | None => text
    end
  else text.

(** The runs [_add_inline_markup] adds for one piece of the split. *)
Definition markup_run (part : string) : Inline :=
  if Py.startswith "**" part && Py.endswith "**" part
  then Run Bold (Py.slice_inner 2 2 part)
  else if Py.startswith "*" part && Py.endswith "*" part
  then Run Italic (Py.slice_inner 1 1 part)
  else if Py.startswith "`" part && Py.endswith "`" part
  then Run Code (Py.slice_inner 1 1 part)
  else Run Plain part.

(** [_add_inline_markup] *)
Definition _add_inline_markup (text : string) : list Inline :=
  markup_run <$> Re.split markup_re text.

(** The cells of one table row: [[c.strip() for c in
    row.strip('|').split('|')]]. *)
Definition row_cells (row : string) : list string :=
  Py.strip <$> Py.split "|" (Py.strip_char "|" row).

(** The padding loop and the final slice of a data row. *)
Definition fit (num_cols : nat) (cells : list string) : list string :=
  take num_cols (cells ++ replicate (num_cols - length cells) "").

(** The stripped non-blank lines of a table body. *)
Definition table_lines (table_md : string) : list string :=
  Py.strip <$>
    List.filter (fun l => Py.truthy (Py.strip l))
                (Py.split "010" (Py.strip table_md)).

(** The parsing half of [_render_table_body]: header cells and data
    rows, or [None] when it returns early. *)
Definition table_cells (table_md : string)
  : option (list string * list (list string)) :=
  let lines := table_lines table_md in
  if length lines <? 2 then None
  else
    let header_cells := row_cells (nth 0 lines "") in
    let num_cols := length header_cells in
    let data_start :=
      if is_match separator_re (nth 1 lines "") then 2 else 1 in
    let data_rows :=
      (fun row_line => fit num_cols (row_cells row_line))
        <$> drop data_start lines in
    Some (header_cells, data_rows).

Section Rendering.

Variable env : Env.
Variable cfg : Config.

(** [f"{prefix}-{n}" if prefix else str(n)] *)
Definition num_text (n : nat) : string :=
  if Py.truthy_opt (chapter_prefix cfg)
  then Py.or_empty (chapter_prefix cfg) +:+ "-" +:+ Py.str_of_nat n
  else Py.str_of_nat n.

(** [f'_Ref_{cat}:{label}' if label else None] *)
Definition bookmark (cat label : string) : option string :=
  if Py.truthy label then Some ("_Ref_" +:+ cat +:+ ":" +:+ label) else None.

(** [p_cap.style = 'Caption'], a missing style being ignored. *)
Definition caption_style : option string :=
  if has_style env "Caption" then Some "Caption" else None.

Definition seq_mode : bool := String.eqb (crossref_mode cfg) "seq".

(** [insert_paragraph(text, style)]: [doc.add_paragraph] raises when
    the style is named and the document does not have it. *)
Definition insert_paragraph (text : string) (style : option string)
  : M unit :=
  match style with
  | Some name =>
      if has_style env name
      then place (Para (mkParagraph (Some name) false None
                                    (text_content text)))
      else raise
  | None => place (Para (mkParagraph None false None (text_content text)))
  end.

(** The image paragraph of a figure. *)
Definition picture_paragraph (file : string) (width : option string)
  : Block :=
  Para (mkParagraph None true None [Picture file width]).

(** [_insert_figure] *)
Definition _insert_figure (directive : Directive) : M unit :=
  modify (fun s => set_fig (_fig_counter s + 1) s) ;;
  let label := Py.or_empty (Parser.label directive) in
  let img_path := Py.or_empty (Parser.path directive) in
  let caption := Py.or_empty (Parser.caption directive) in
  let width := Parser.width directive in
  let full_path := resolve (project_root cfg) img_path in
  (if path_exists env full_path then
     if Py.truthy_opt width then
       let w := Py.remove_char "%" (Py.or_empty width) in
       if width_ok env w && picture_ok env full_path
       then place (picture_paragraph full_path (Some w))
       else if picture_ok env full_path
            then place (picture_paragraph full_path None)
            else raise
     else if picture_ok env full_path
          then place (picture_paragraph full_path None)
          else raise
   else mret tt) ;;
  n ← gets _fig_counter ;
  label_store ("fig:" +:+ label) (zu +:+ num_text n) ;;
  place (Para (mkParagraph caption_style true None
    (if seq_mode
     then [Run Plain zu] ++
          make_seq_field "Figure" (chapter_prefix cfg)
                         (bookmark "fig" label) ++
          [Run Plain (" " +:+ caption)]
     else [Run Plain (zu +:+ num_text n +:+ " " +:+ caption)]))).

(** [_insert_equation] *)
Definition _insert_equation (directive : Directive) : M unit :=
  modify (fun s => set_eq (_eq_counter s + 1) s) ;;
  let label := Py.or_empty (Parser.label directive) in
  let latex := Py.or_empty (Parser.latex directive) in
  n ← gets _eq_counter ;
  let number := "(" +:+ num_text n +:+ ")" in
  label_store ("eq:" +:+ label) number ;;
  cache ← gets _omml_cache ;
  let '(omml, cache') := latex_to_omml env latex cache in
  modify (set_cache cache') ;;
  place (Para (mkParagraph None false None
    ((match omml with
      | Some el => [Math el]
      | None => [Run Italic latex]
      end) ++
     [Run Plain (String "009" "")] ++
     (if seq_mode
      then [Run Plain "("] ++
           make_seq_field "Equation" (chapter_prefix cfg)
                          (bookmark "eq" label) ++
           [Run Plain ")"]
      else [Run Plain number])))).

(** [_insert_table_caption] *)
Definition _insert_table_caption (directive : Directive) : M unit :=
  modify (fun s => set_tbl (_tbl_counter s + 1) s) ;;
  let label := Py.or_empty (Parser.label directive) in
  let caption := Py.or_empty (Parser.caption directive) in
  n ← gets _tbl_counter ;
  label_store ("tbl:" +:+ label) (hyou +:+ num_text n) ;;
  place (Para (mkParagraph caption_style true None
    (if seq_mode
     then [Run Plain hyou] ++
          make_seq_field "Table" (chapter_prefix cfg)
                         (bookmark "tbl" label) ++
          [Run Plain (" " +:+ caption)]
     else [Run Plain (hyou +:+ num_text n +:+ " " +:+ caption)]))).

(** [_insert_algorithm_caption] *)
Definition _insert_algorithm_caption (directive : Directive) : M unit :=
  modify (fun s => set_alg (_alg_counter s + 1) s) ;;
  let label := Py.or_empty (Parser.label directive) in
  let caption := Py.or_empty (Parser.caption directive) in
  n ← gets _alg_counter ;
  label_store ("alg:" +:+ label) ("Algorithm " +:+ num_text n) ;;
  place (Para (mkParagraph caption_style false None
    [Run Bold ("Algorithm " +:+ num_text n +:+ ": " +:+ caption)])).

(** [_render_table_body]: nothing for fewer than two lines; the table
    style is set without a guard. *)
Definition _render_table_body (table_md : string) : M unit :=
  match table_cells table_md with
  | None => mret tt
  | Some (header_cells, data_rows) =>
      if has_style env "Table Grid"
      then place (Tbl header_cells data_rows)
      else raise
  end.

(** The paragraphs of an algorithm body, one per line. *)
Fixpoint insert_lines (blines : list string) : M unit :=
  match blines with
  | [] => mret tt
  | bline :: rest =>
      insert_paragraph bline (Some "Normal") ;; insert_lines rest
  end.

(** [flush_paragraph], on the buffer it empties. *)
Definition flush_paragraph (paragraph_buffer : list string) : M unit :=
  match paragraph_buffer with
  | [] => mret tt
  | _ =>
      let text := Py.strip (Py.join (String "010" "") paragraph_buffer) in
      if Py.truthy text
      then place (Para (mkParagraph None false
             (if (0 <? first_line_indent cfg)%Z
              then Some (first_line_indent cfg) else None)
             (_add_inline_markup text)))
      else mret tt
  end.

Definition page_break : Block :=
  Para (mkParagraph None false None [PageBreak]).

(** The dispatch on the type of the directive found at a line. *)
Definition render_directive (d : Directive) : M unit :=
  match type d with
  | PAGEBREAK => place page_break
  | FIGURE => _insert_figure d
  | EQUATION => _insert_equation d
  | TABLE =>
      _insert_table_caption d ;;
      if Py.truthy_opt (body d)
      then _render_table_body (Py.or_empty (body d))
      else mret tt
  | ALGORITHM =>
      _insert_algorithm_caption d ;;
      if Py.truthy_opt (body d)
      then insert_lines (Py.split "010" (Py.or_empty (body d)))
      else mret tt
  | REF =>
      let label := Py.or_empty (Parser.label d) in
      if seq_mode
      then place (Para (mkParagraph None false None
                          (make_ref_field ("_Ref_" +:+ label))))
      else
        labels ← gets _labels ;
        insert_paragraph
          (default ("[" +:+ label +:+ "]") (labels !! label)) None
  | RAW_DOCX =>
      if Py.truthy_opt (body d)
      then match fromstring env (Py.or_empty (body d)) with
           | Parsed raw_xml => place (Raw raw_xml)
           | XMLSyntaxError => mret tt
           | OtherError => raise
           end
      else mret tt
  | STYLE =>
      insert_paragraph (Py.or_empty (style_text d)) (style_name d)
  | TABLE_END | ALGORITHM_END | RAW_DOCX_END => mret tt
  end.

Variable lines : list string.
Variable dir_map : gmap nat Directive.

(** One turn of the loop of [_render_markdown] at index [i]: the number
    of lines to skip beyond this one, and the paragraph buffer. *)
Definition turn (i : nat) (paragraph_buffer : list string)
  : M (nat * list string) :=
  let line_num := i + 1 in
  let line := nth i lines "" in
  match dir_map !! line_num with
  | Some d =>
      flush_paragraph paragraph_buffer ;;
      render_directive d ;;
      match body d with
      | Some b =>
          let body_lines := Py.count "010" b + 1 in
          mret (body_lines + 1, [])
      | None => mret (0, [])
      end
  | None =>
      let stripped := Py.strip line in
      if is_match end_tag_re stripped then mret (0, paragraph_buffer)
      else
        match Re.match_ heading_re line with
        | Some m =>
            flush_paragraph paragraph_buffer ;;
            let level := String.length (Py.or_empty (Re.group m !! 1)) in
            let heading_text := Py.strip (Py.or_empty (Re.group m !! 2)) in
            (if page_break_before_h2 cfg && (level =? 2)
             then place page_break else mret tt) ;;
            insert_paragraph heading_text
              (Some ("Heading " +:+ Py.str_of_nat level)) ;;
            mret (0, [])
        | None =>
            if negb (Py.truthy stripped)
            then flush_paragraph paragraph_buffer ;; mret (0, [])
            else if is_match rule_re stripped
            then flush_paragraph paragraph_buffer ;; mret (0, [])
            else mret (0, paragraph_buffer ++ [line])
        end
  end.

(** The loop [while i < len(lines)] and the final flush. *)
Equations? render_loop (i : nat) (paragraph_buffer : list string)
          (s : State) : Res unit
  by wf (length lines - i) lt :=
  render_loop i paragraph_buffer s with decide (i < length lines) => {
    | right _ => flush_paragraph paragraph_buffer s
    | left _ with turn i paragraph_buffer s => {
        | Ok (skip, buffer) s' => render_loop (i + skip + 1) buffer s'
        | Raised s' => Raised s' } }.
Proof. lia. Qed.

End Rendering.

(** The line-to-directive map; a later directive on a line replaces an
    earlier one. *)
Definition build_dir_map (directives : list Directive)
  : gmap nat Directive :=
  foldl (fun m d => <[line d := d]> m) ∅ directives.

(** [_render_markdown] *)
Definition _render_markdown (env : Env) (cfg : Config) (content : string)
  : M unit :=
  let lines := Py.split "010" content in
  let directives := parse_directives content in
  render_loop env cfg lines (build_dir_map directives) 0 [].

(** The counters and the label map as [build] resets them, on a document
    loaded anew. *)
Definition reset (s : State) : State :=
  mkState 0 0 0 0 ∅ (_omml_cache s) [].

(** [build], from the reset of the counters to the rendering; [true]
    when rendering did not raise. *)
Definition build (env : Env) (cfg : Config) (content : string) (s : State)
  : bool * State :=
  match _render_markdown env cfg (_strip_front_matter content) (reset s) with
  | Ok _ s' => (true, s')
  | Raised s' => (false, s')
  end.

End DocxEngine.

(* ===================================================================== *)
(** * Notions used to state the properties *)
(* ===================================================================== *)

Module Props.
Import Parser Docx DocxHelpers DocxEngine.

(** A separator row in the words of the specification: a non-empty line
    of bars, white space, dashes and colons. *)
Definition separator_char (c : ascii) : bool :=
  Ascii.eqb c "|" || Py.isspace c || Ascii.eqb c "-" || Ascii.eqb c ":".

Fixpoint all_chars (p : ascii -> bool) (s : string) : bool :=
  match s with
  | EmptyString => true
  | String c s' => p c && all_chars p s'
  end.

Definition separator_line (l : string) : bool :=
  Py.truthy l && all_chars separator_char l.

(** A pattern whose every match takes at least one character. *)
Definition consuming (r : Re.regex) : Prop :=
  forall A s g (k : Re.cont A) x,
    Re.exec r s g k = Some x ->
    exists s' g', k s' g' = Some x /\ String.length s' < String.length s.

(** The test [$] makes on the rest of a text: at its end, or in front of
    a last newline. *)
Definition at_end (s : string) : option unit :=
  if String.eqb s "" || String.eqb s (String "010" "") then Some tt else None.

(** The table the specification describes for the non-blank lines of a
    body: the first line gives the header cells, a separator row right
    behind it is skipped, every further line gives one data row fitted
    to the number of header cells. *)
Definition described_table (lines : list string)
  : option (list string * list (list string)) :=
  match lines with
  | [] => None
  | first :: rest =>
      let header := row_cells first in
      let data :=
        match rest with
        | second :: rest' => if separator_line second then rest' else rest
        | [] => []
        end in
      Some (header, (fun l => fit (length header) (row_cells l)) <$> data)
  end.

Definition nl : string := String "010" "".

(** The body of the round-trip example of the specification. *)
Definition example_table : string :=
  "a|b" +:+ nl +:+ "--|--" +:+ nl +:+ "1|2" +:+ nl +:+ "3|4".

(** The number of lines at the head of [rest] that are not the end tag:
    the lines a block opened just before [rest] takes as its body. *)
Fixpoint body_span (end_tag : string) (rest : list string) : nat :=
  match rest with
  | [] => 0
  | l :: rest' =>
      if is_end end_tag l then 0 else S (body_span end_tag rest')
  end.

(** [scan_to lines i j]: the outer loop of [parse_directives], when at
    line index [i], later is at line index [j]. *)
Inductive scan_to (lines : list string) : nat -> nat -> Prop :=
| scan_here i : scan_to lines i i
| scan_skip i j :
    i < length lines -> parse_line lines i = Skip ->
    scan_to lines (i + 1) j -> scan_to lines i j
| scan_emit i j d next :
    i < length lines -> parse_line lines i = Emit d next ->
    scan_to lines next j -> scan_to lines i j.

(** The loop arrives at line index [i]: the line is not swallowed by the
    body of a block opened before it. *)
Definition reached (lines : list string) (i : nat) : Prop :=
  scan_to lines 0 i.

(** The closing tag written out for an end-tag name. *)
Definition closing_line (end_tag : string) : string :=
  "<!-- " +:+ end_tag +:+ " -->".

(** ** The run of the rendering loop *)

(** The lines a directive makes the loop skip beyond its own line. *)
Definition extra (d : Directive) : nat :=
  match body d with
  | Some b => Py.count "010" b + 1 + 1
  | None => 0
  end.

(** The loop of [_render_markdown] after at most [n] turns from index
    [i]: the index and the paragraph buffer it has then. *)
Fixpoint turns (env : Env) (cfg : Config) (lines : list string)
         (dir_map : gmap nat Directive) (n i : nat) (buf : list string)
  : M (nat * list string) :=
  match n with
  | 0 => mret (i, buf)
  | S n' =>
      if decide (i < length lines)
      then r ← turn env cfg lines dir_map i buf ;
           turns env cfg lines dir_map n' (i + r.1 + 1) r.2
      else mret (i, buf)
  end.

(** The directives these turns render, in the order of rendering. *)
Fixpoint dispatched (lines : list string) (dir_map : gmap nat Directive)
         (n i : nat) : list Directive :=
  match n with
  | 0 => []
  | S n' =>
      if decide (i < length lines)
      then match dir_map !! (i + 1) with
           | Some d => d :: dispatched lines dir_map n' (i + extra d + 1)
           | None => dispatched lines dir_map n' (i + 1)
           end
      else []
  end.

(** How many directives of a type a list holds. *)
Definition count_type (t : DirectiveType) (ds : list Directive) : nat :=
  length (filter (fun d => type d = t) ds).

(** The qualified label of a numbered directive: its label behind the
    prefix of its category. *)
Definition qualified (d : Directive) : option string :=
  let label := Py.or_empty (Parser.label d) in
  match type d with
  | FIGURE => Some ("fig:" +:+ label)
  | TABLE => Some ("tbl:" +:+ label)
  | EQUATION => Some ("eq:" +:+ label)
  | ALGORITHM => Some ("alg:" +:+ label)
  | _ => None
  end.

(** The rendered reference of the [k]-th instance of a category. *)
Definition reference (cfg : Config) (t : DirectiveType) (k : nat) : string :=
  match t with
  | FIGURE => zu +:+ num_text cfg k
  | TABLE => hyou +:+ num_text cfg k
  | EQUATION => "(" +:+ num_text cfg k +:+ ")"
  | ALGORITHM => "Algorithm " +:+ num_text cfg k
  | _ => ""
  end.

(** The numbering state of a build: the four counters and the label
    map. *)
Record Numbering : Type := mkNumbering {
  figs : nat;
  tbls : nat;
  eqs : nat;
  algs : nat;
  refs : gmap string string;
}.

Definition numbering (s : State) : Numbering :=
  mkNumbering (_fig_counter s) (_tbl_counter s) (_eq_counter s)
              (_alg_counter s) (_labels s).

Definition counter_of (t : DirectiveType) (n : Numbering) : nat :=
  match t with
  | FIGURE => figs n
  | TABLE => tbls n
  | EQUATION => eqs n
  | ALGORITHM => algs n
  | _ => 0
  end.

(** What rendering one directive does to the numbering state. *)
Definition number (cfg : Config) (n : Numbering) (d : Directive)
  : Numbering :=
  let k := counter_of (type d) n + 1 in
  let refs' :=
    match qualified d with
    | Some key => <[key := reference cfg (type d) k]> (refs n)
    | None => refs n
    end in
  match type d with
  | FIGURE => mkNumbering k (tbls n) (eqs n) (algs n) refs'
  | TABLE => mkNumbering (figs n) k (eqs n) (algs n) refs'
  | EQUATION => mkNumbering (figs n) (tbls n) k (algs n) refs'
  | ALGORITHM => mkNumbering (figs n) (tbls n) (eqs n) k refs'
  | _ => n
  end.

(** A computation only adds to the document: whether it returns or
    raises, what was placed before is still there, in front. *)
Definition grows {A} (m : M A) : Prop :=
  forall s, exists blocks, doc (final_state (m s)) = doc s ++ blocks.

(** A prose line: no closing tag, no heading, not blank, no horizontal
    rule; the line the loop puts into the paragraph buffer when there
    is no directive on it. *)
Definition is_prose (l : string) : bool :=
  negb (is_match end_tag_re (Py.strip l))
  && negb (is_match heading_re l)
  && Py.truthy (Py.strip l)
  && negb (is_match rule_re (Py.strip l)).

(** The paragraph a buffer of prose lines is rendered to. *)
Definition paragraph_of (cfg : Config) (buf : list string) : Block :=
  Para (mkParagraph None false
          (if (0 <? first_line_indent cfg)%Z
           then Some (first_line_indent cfg) else None)
          (_add_inline_markup (Py.strip (Py.join nl buf)))).

(** The four numbered categories. *)
Definition numbered (t : DirectiveType) : Prop :=
  t = FIGURE \/ t = TABLE \/ t = EQUATION \/ t = ALGORITHM.

(** One for a directive of the given type, zero for any other. *)
Definition one_if (t : DirectiveType) (d : Directive) : nat :=
  if decide (type d = t) then 1 else 0.

(** A project directory that exists and holds no file, a document with
    every style, a converter that always fails. *)
Definition bare_project (root : string) : Env :=
  mkEnv (String.eqb root) (fun _ => false) (fun _ => true) (fun _ => true)
        (fun _ => XMLSyntaxError) (fun _ => None).

(** The same project with a converter that always succeeds. *)
Definition converting_project (root : string) : Env :=
  mkEnv (String.eqb root) (fun _ => false) (fun _ => true) (fun _ => true)
        (fun _ => XMLSyntaxError) (fun latex => Some (Some latex)).

(** Immediate and deferred cross-references, no chapter prefix. *)
Definition immediate : Config := mkConfig None "direct" 0 false "/proj".
Definition deferred : Config := mkConfig None "seq" 0 false "/proj".

End Props.


(* ===================================================================== *)
(** * Further notions used to state properties *)
(* ===================================================================== *)

Module Notions.
Import Parser Docx DocxHelpers DocxEngine Props.

(** The directives of a list stand in the order of their lines. *)
Definition in_order (ds : list Directive) : Prop :=
  forall i j d1 d2,
    i < j -> ds !! i = Some d1 -> ds !! j = Some d2 -> line d1 < line d2.

(** [p in s]: the text [p] occurs somewhere in [s]. *)
Fixpoint occurs (p s : string) : bool :=
  String.prefix p s
  || match s with
     | String _ s' => occurs p s'
     | EmptyString => false
     end.

(** The types of the block directives. *)
Definition is_block (t : DirectiveType) : bool :=
  match t with
  | TABLE | ALGORITHM | RAW_DOCX => true
  | _ => false
  end.

(** A computation that never raises. *)
Definition returns {A} (m : M A) : Prop :=
  forall s, exists a s', m s = Ok a s'.

(** The picture of a figure directive can be loaded whenever the path
    it resolves to exists. *)
Definition picture_loadable (env : Env) (cfg : Config) (d : Directive)
  : Prop :=
  type d = FIGURE ->
  let p := resolve (project_root cfg) (Py.or_empty (path d)) in
  path_exists env p = true -> picture_ok env p = true.

(** A computation that leaves every entry of the conversion cache as it
    is, whether it returns or raises. *)
Definition keeps_cache {A} (m : M A) : Prop :=
  forall s, _omml_cache s ⊆ _omml_cache (final_state (m s)).

(** The names of the bookmarks that open in a block. *)
Definition bookmarks_of (b : Block) : list string :=
  match b with
  | Para p =>
      omap (fun i => match i with BookmarkStart n => Some n | _ => None end)
           (content p)
  | _ => []
  end.

(** The names of the bookmarks that REF fields of a block point to, as
    their instruction texts. *)
Definition ref_targets (b : Block) : list string :=
  match b with
  | Para p =>
      omap (fun i => match i with InstrText t => Some t | _ => None end)
           (content p)
  | _ => []
  end.

(** A project in which every path exists and holds a picture that can
    be loaded, with every style, raw fragments that do not parse and a
    converter that fails. *)
Definition served_project : Env :=
  mkEnv (fun _ => true) (fun _ => true) (fun _ => true) (fun _ => true)
        (fun _ => XMLSyntaxError) (fun _ => None).

(** The categories whose caption carries a SEQ field in deferred mode:
    figures, tables and equations, not algorithms. *)
Definition bookmarked (t : DirectiveType) : bool :=
  match t with FIGURE | TABLE | EQUATION => true | _ => false end.

(** The marker that opens and closes a formatted span. *)
Definition marker (f : Format) : string :=
  match f with
  | Bold => "**"
  | Italic => "*"
  | Code => "`"
  | Plain => ""
  end.

(** Free of the two characters that start a span. *)
Definition unmarked (s : string) : Prop :=
  Py.count "*" s = 0 /\ Py.count "`" s = 0.

(** Free of the character that would close a span of the format. *)
Definition closes_late (f : Format) (inner : string) : Prop :=
  Py.count (match f with Code => "`" | _ => "*" end)%char inner = 0.

(** The closing marker of the front matter: a newline and three dashes. *)
Definition closing : string := String "010" "---".

(** The first character of a text is none of the two that start a
    span. *)
Definition plain_head (s : string) : Prop :=
  match s with
  | EmptyString => True
  | String c _ => c <> "*"%char /\ c <> "`"%char
  end.

End Notions.
(* ===================================================================== *)
(** * Properties of the regular-expression matcher *)
(* ===================================================================== *)

Module ReProps.
Import DocxEngine Props.

(** A repetition depends on its continuation only through its values. *)
Lemma rep_ext {A} (greedy : bool) (p : ascii -> bool) (f g : string -> option A) :
  (forall s', f s' = g s') ->
  forall s lo hi, Re.rep greedy p lo hi s f = Re.rep greedy p lo hi s g.
Proof.
  intros Hfg s. induction s as [|c s IH]; intros lo hi; cbn [Re.rep].
  - now rewrite Hfg.
  - now rewrite IH, Hfg.
Qed.

(** Mapping over the result of a repetition is mapping over that of its
    continuation. *)
Lemma rep_fmap {A B} (h : A -> B) (greedy : bool) (p : ascii -> bool)
      (f : string -> option A) :
  forall s lo hi,
    h <$> Re.rep greedy p lo hi s f
    = Re.rep greedy p lo hi s (fun s' => h <$> f s').
Proof.
  intros s. induction s as [|c s IH]; intros lo hi; cbn [Re.rep].
  - destruct greedy, lo; cbn; try destruct (f ""); reflexivity.
  - rewrite <- IH.
    destruct greedy, (p c && Re.hi_allows hi), lo; cbn;
      try destruct (Re.rep _ p _ _ s f); cbn;
      try destruct (f (String c s)); reflexivity.
Qed.



Lemma length_substring (n m : nat) (s : string) :
  String.length (String.substring n m s) <= String.length s - n.
Proof.
  revert n m. induction s as [|c s IH]; intros n m.
  - destruct n, m; cbn; lia.
  - destruct n as [|n].
    + destruct m as [|m]; cbn; [lia|].
      specialize (IH 0 m). lia.
    + cbn. apply IH.
Qed.

Lemma prefix_length (l s : string) :
  String.prefix l s = true -> String.length l <= String.length s.
Proof.
  revert s. induction l as [|c l IH]; intros s; cbn; [lia|].
  destruct s as [|d s]; [discriminate|]. cbn.
  destruct (ascii_dec c d); [|discriminate].
  intros H. apply IH in H. lia.
Qed.

(** A repetition hands to what follows a text no longer than its own. *)
Lemma rep_suffix {A} greedy p (k : string -> option A) x :
  forall s lo hi,
    Re.rep greedy p lo hi s k = Some x ->
    exists s', k s' = Some x /\ String.length s' <= String.length s.
Proof.
  intros s. induction s as [|c s IH]; intros lo hi; cbn [Re.rep].
  - destruct greedy, lo; cbn; try discriminate;
      destruct (k "") eqn:E; try discriminate;
      intros [= ->]; exists ""; auto.
  - assert (Hmore : forall lo' hi',
               (if p c && Re.hi_allows hi
                then Re.rep greedy p lo' hi' s k else None) = Some x ->
               exists s', k s' = Some x
                          /\ String.length s' <= String.length (String c s)).
    { intros lo' hi' H. destruct (p c && Re.hi_allows hi); [|discriminate].
      apply IH in H as (s' & Hk & Hl). exists s'. cbn. split; [exact Hk|lia]. }
    assert (Hstop : match lo with 0 => k (String c s) | S _ => None end
                    = Some x ->
                    exists s', k s' = Some x
                          /\ String.length s' <= String.length (String c s)).
    { destruct lo; [|discriminate]. intros H. exists (String c s). auto. }
    destruct greedy.
    + destruct (if p c && Re.hi_allows hi then _ else None) eqn:E.
      * intros [= ->]. eapply Hmore; exact E.
      * exact Hstop.
    + destruct (match lo with 0 => _ | S _ => None end) eqn:E.
      * intros [= ->]. apply Hstop. reflexivity.
      * apply Hmore.
Qed.

(** So does every pattern. *)
Lemma exec_suffix {A} (r : Re.regex) :
  forall s g (k : Re.cont A) x,
    Re.exec r s g k = Some x ->
    exists s' g', k s' g' = Some x /\ String.length s' <= String.length s.
Proof.
  induction r as [l|p|greedy lo hi p|r1 IH1 r2 IH2|r1 IH1 r2 IH2|r1 IH1|n r1 IH1|];
    intros s g k x; cbn [Re.exec].
  - destruct (String.prefix l s); [|discriminate]. intros H.
    eexists _, g. split; [exact H|].
    unfold Py.drop. pose proof (length_substring (String.length l)
      (String.length s - String.length l) s). lia.
  - destruct s as [|c s]; [discriminate|].
    destruct (p c); [|discriminate]. intros H.
    exists s, g. cbn. split; [exact H|lia].
  - intros H. apply rep_suffix in H as (s' & Hk & Hl). eauto.
  - intros H. apply IH1 in H as (s1 & g1 & H & Hl1).
    apply IH2 in H as (s2 & g2 & H & Hl2). exists s2, g2. split; [exact H|lia].
  - destruct (Re.exec r1 s g k) eqn:E.
    + intros [= ->]. now apply IH1 in E.
    + apply IH2.
  - destruct (Re.exec r1 s g k) eqn:E.
    + intros [= ->]. now apply IH1 in E.
    + intros H. exists s, g. auto.
  - intros H. apply IH1 in H as (s1 & g1 & H & Hl1). eauto.
  - destruct (_ || _); [|discriminate]. intros H. exists s, g. auto.
Qed.

Lemma consuming_lit (l : string) (r : Re.regex) :
  0 < String.length l -> consuming (Re.Seq (Re.Lit l) r).
Proof.
  intros Hl A s g k x. cbn [Re.exec].
  destruct (String.prefix l s) eqn:Hp; [|discriminate].
  apply prefix_length in Hp. intros H.
  apply exec_suffix in H as (s' & g' & H & Hle). exists s', g'.
  split; [exact H|].
  unfold Py.drop in Hle. pose proof (length_substring (String.length l)
    (String.length s - String.length l) s). lia.
Qed.

Lemma consuming_alt (r1 r2 : Re.regex) :
  consuming r1 -> consuming r2 -> consuming (Re.Alt r1 r2).
Proof.
  intros H1 H2 A s g k x. cbn [Re.exec].
  destruct (Re.exec r1 s g k) eqn:E.
  - intros [= ->]. now apply H1 in E.
  - apply H2.
Qed.

Lemma consuming_grp (n : nat) (r : Re.regex) :
  consuming r -> consuming (Re.Grp n r).
Proof.
  intros H A s g k x. cbn [Re.exec]. intros E.
  apply H in E as (s' & g' & E & Hl). eauto.
Qed.

(** A match of the markup pattern takes at least one character. *)
Lemma markup_consumes : consuming markup_re.
Proof.
  unfold markup_re. cbn [Re.seq].
  apply consuming_grp.
  repeat apply consuming_alt; apply consuming_lit; cbn; lia.
Qed.

Lemma search_markup_shorter pre s m :
  Re.search_from markup_re pre s = Some m ->
  String.length (Re.after m) < String.length s.
Proof.
  revert pre. induction s as [|c s IH]; intros pre; cbn [Re.search_from].
  - destruct (Re.exec markup_re "" _ _) eqn:E; [|discriminate].
    apply markup_consumes in E as (s' & g' & _ & Hl). cbn in Hl. lia.
  - destruct (Re.exec markup_re (String c s) _ _) eqn:E.
    + intros [= ->]. apply markup_consumes in E as (s' & g' & [= <-] & Hl).
      exact Hl.
    + intros H. apply IH in H. cbn. lia.
Qed.

(** The bound of [Re.split] on the markup pattern is never used up: any
    bound from the length of the text on gives the same pieces. *)
Lemma split_markup_bound n :
  forall m s,
    String.length s <= n -> String.length s <= m ->
    Re.split_from n markup_re s = Re.split_from m markup_re s.
Proof.
  induction n as [|n IH]; intros m s Hn Hm.
  - destruct s; [|cbn in Hn; lia]. destruct m; reflexivity.
  - destruct m as [|m].
    + destruct s; [reflexivity|cbn in Hm; lia].
    + cbn [Re.split_from]. destruct (Re.search markup_re s) as [f|] eqn:E;
        [|reflexivity].
      apply search_markup_shorter in E. f_equal. f_equal. apply IH; lia.
Qed.

End ReProps.

(* ===================================================================== *)
(** * Properties of the table renderer *)
(* ===================================================================== *)

Module TableProps.
Import Parser Docx DocxHelpers DocxEngine Props.

Lemma length_fit (n : nat) (cells : list string) :
  length (fit n cells) = n.
Proof.
  unfold fit. rewrite length_take, length_app, length_replicate. lia.
Qed.

Lemma fit_pad (n : nat) (cells : list string) :
  length cells <= n -> fit n cells = cells ++ replicate (n - length cells) "".
Proof.
  intros H. unfold fit. apply take_ge.
  rewrite length_app, length_replicate. lia.
Qed.

Lemma fit_trim (n : nat) (cells : list string) :
  n <= length cells -> fit n cells = take n cells.
Proof.
  intros H. unfold fit.
  replace (n - length cells) with 0 by lia. simpl. now rewrite app_nil_r.
Qed.

(** A greedy run of class characters in front of [$] succeeds exactly on
    texts made of class characters, when the class has the newline that
    [$] tolerates. *)
Lemma rep_to_end (p : ascii -> bool) (s : string) (lo : nat) :
  p "010"%char = true ->
  Re.rep true p lo None s at_end
  = if all_chars p s && (lo <=? String.length s) then Some tt else None.
Proof.
  intros Hnl. revert lo. induction s as [|c s IH]; intros lo.
  - destruct lo; reflexivity.
  - cbn [Re.rep all_chars Re.hi_allows Re.hi_pred String.length].
    rewrite andb_true_r.
    destruct (p c) eqn:Hc; cbn [andb].
    + rewrite IH.
      destruct lo as [|lo]; cbn [pred Nat.leb].
      * rewrite andb_true_r.
        destruct (all_chars p s) eqn:Hall; [reflexivity|].
        unfold at_end. destruct s as [|c' s']; [discriminate Hall|].
        cbn. destruct (Ascii.eqb c "010"); reflexivity.
      * destruct (all_chars p s && (lo <=? String.length s)); reflexivity.
    + destruct lo as [|lo]; [|reflexivity].
      unfold at_end. cbn [String.eqb orb].
      destruct (Ascii.eqb_spec c "010") as [->|Hne]; [congruence|].
      reflexivity.
Qed.

(** The separator test of the code is the separator row of the
    specification. *)
Lemma separator_re_spec (l : string) :
  is_match separator_re l = separator_line l.
Proof.
  unfold is_match, Re.match_, separator_re, Re.plus. cbn [Re.exec].
  match goal with
  | |- context [Re.rep true ?p 1 None l ?k] =>
      assert (H : (fun _ => tt) <$> Re.rep true p 1 None l k
                  = Re.rep true separator_char 1 None l at_end)
  end.
  { rewrite ReProps.rep_fmap. apply ReProps.rep_ext.
    intros s'. unfold at_end.
    destruct (String.eqb s' "" || String.eqb s' (String "010" "")); reflexivity. }
  rewrite (rep_to_end separator_char l 1 eq_refl) in H.
  unfold separator_line.
  destruct (Re.rep true _ 1 None l _); cbn in H;
    destruct l as [|c l]; cbn in H |- *; try discriminate; try reflexivity;
    destruct (separator_char c && all_chars separator_char l);
    try discriminate; reflexivity.
Qed.

(** Every data row of the described table has as many cells as the
    header. *)
Lemma described_table_width (lines : list string) header rows :
  described_table lines = Some (header, rows) ->
  Forall (fun row => length row = length header) rows.
Proof.
  destruct lines as [|first rest]; [discriminate|].
  cbn. intros [= <- <-]. apply Forall_fmap, Forall_true.
  intros l. apply length_fit.
Qed.

(** C4, as amended: for every table body with at least two non-blank
    lines, the renderer takes the first non-blank line as the header
    cells, skips a separator row of bars, white space, dashes and colons
    right behind it, and turns each remaining non-blank line into one
    data row, padded with empty strings or cut to the number of header
    cells; the body [a|b / --|-- / 1|2 / 3|4] gives the header [a; b]
    and the two rows [1; 2] and [3; 4]. *)
Theorem table_body_rows (table_md : string) :
  2 <= length (table_lines table_md) ->
  table_cells table_md = described_table (table_lines table_md)
  /\ (forall header rows,
        table_cells table_md = Some (header, rows) ->
        Forall (fun row => length row = length header) rows)
  /\ table_cells example_table
     = Some (["a"; "b"], [["1"; "2"]; ["3"; "4"]]).
Proof.
  intros Hlen.
  assert (Heq : table_cells table_md = described_table (table_lines table_md)).
  { unfold table_cells.
    destruct (table_lines table_md) as [|first [|second rest]] eqn:E;
      cbn [length] in Hlen; try lia.
    replace (length (first :: second :: rest) <? 2) with false
      by (symmetry; apply Nat.ltb_ge; cbn; lia).
    cbn [nth described_table]. rewrite separator_re_spec.
    destruct (separator_line second); reflexivity. }
  split; [exact Heq|]. split; [|vm_compute; reflexivity].
  intros header rows H. rewrite Heq in H.
  eapply described_table_width; eassumption.
Qed.

Lemma table_body_rows_witness :
  table_cells example_table = described_table (table_lines example_table).
Proof.
  apply (table_body_rows example_table). vm_compute. lia.
Defined.

(** C4, as stated, fails on a body that is a header row only: the
    specification describes a table with the header [a; b] and no data
    row, the renderer returns early and makes no table. *)
Lemma table_header_only_counterexample :
  described_table (table_lines "a|b") = Some (["a"; "b"], [])
  /\ table_cells "a|b" = None
  /\ ~ (forall table_md,
          table_cells table_md = described_table (table_lines table_md)).
Proof.
  split; [vm_compute; reflexivity|]. split; [vm_compute; reflexivity|].
  intros H. specialize (H "a|b"). vm_compute in H. discriminate H.
Qed.




End TableProps.

(* ===================================================================== *)
(** * Properties of equation rendering and the conversion cache *)
(* ===================================================================== *)

Module EquationProps.
Import Parser Docx DocxHelpers DocxEngine Props.





End EquationProps.
(* ===================================================================== *)
(** * Properties of the directive parser *)
(* ===================================================================== *)

Module ParserProps.
Import Parser Props.

Lemma split_nonempty (sep : ascii) (s : string) : Py.split sep s <> [].
Proof.
  destruct s as [|c s]; cbn; [discriminate|].
  destruct (Ascii.eqb c sep); [discriminate|].
  destruct (Py.split sep s); discriminate.
Qed.

Lemma split_cons (sep c : ascii) (s : string) :
  Py.split sep (String c s)
  = if Ascii.eqb c sep then "" :: Py.split sep s
    else match Py.split sep s with
         | x :: r => String c x :: r
         | [] => [String c ""]
         end.
Proof. reflexivity. Qed.

(** Splitting a text at a separator that is written out. *)
Lemma split_sep (sep : ascii) (s1 s2 : string) :
  Py.split sep (s1 +:+ String sep s2) = Py.split sep s1 ++ Py.split sep s2.
Proof.
  induction s1 as [|c s1 IH].
  - change ("" +:+ String sep s2) with (String sep s2).
    rewrite split_cons, Ascii.eqb_refl. reflexivity.
  - change (String c s1 +:+ String sep s2)
      with (String c (s1 +:+ String sep s2)).
    rewrite !split_cons, IH. destruct (Ascii.eqb c sep); [reflexivity|].
    pose proof (split_nonempty sep s1) as Hne.
    destruct (Py.split sep s1); [congruence|reflexivity].
Qed.

(** Joining the lines of a text gives the text back: the lines of a body
    are its text, verbatim. *)
Lemma join_split (sep : ascii) (s : string) :
  Py.join (String sep "") (Py.split sep s) = s.
Proof.
  induction s as [|c s IH]; [reflexivity|].
  rewrite split_cons.
  pose proof (split_nonempty sep s) as Hne.
  destruct (Py.split sep s) as [|x r]; [congruence|].
  destruct (Ascii.eqb_spec c sep) as [->|Hc].
  - change (Py.join (String sep "") ("" :: x :: r))
      with (String sep (Py.join (String sep "") (x :: r))).
    now rewrite IH.
  - destruct r as [|y r].
    + cbn in IH |- *. now rewrite IH.
    + change (Py.join (String sep "") (String c x :: y :: r))
        with (String c (Py.join (String sep "") (x :: y :: r))).
      now rewrite IH.
Qed.

Lemma parse_loop_unfold lines i acc :
  parse_loop lines i acc =
  if decide (i < length lines) then
    match parse_line lines i with
    | Skip => parse_loop lines (i + 1) acc
    | Emit d next => parse_loop lines next (acc ++ [d])
    end
  else acc.
Proof.
  funelim (parse_loop lines i acc).
  - now rewrite decide_False by assumption.
  - rewrite decide_True by assumption. now rewrite e.
  - rewrite decide_True by assumption. now rewrite E.
Qed.

(** The inner loop takes the lines in front of the first end tag. *)
Lemma scan_body_spec (e : string) (rest : list string) (j : nat)
      (acc : list string) :
  scan_body e rest j acc
  = (acc ++ take (body_span e rest) rest, j + body_span e rest).
Proof.
  revert j acc. induction rest as [|l rest IH]; intros j acc; cbn.
  - now rewrite app_nil_r, Nat.add_0_r.
  - destruct (is_end e l); cbn.
    + now rewrite app_nil_r, Nat.add_0_r.
    + rewrite IH, <- app_assoc. cbn. f_equal. lia.
Qed.

Lemma body_span_le (e : string) (rest : list string) :
  body_span e rest <= length rest.
Proof.
  induction rest as [|l rest IH]; cbn; [lia|].
  destruct (is_end e l); cbn; lia.
Qed.

(** No end tag among the lines: the body is all of them. *)
Lemma body_span_unterminated (e : string) (rest : list string) :
  Forall (fun l => is_end e l = false) rest ->
  body_span e rest = length rest.
Proof.
  induction 1 as [|l rest Hl _ IH]; cbn; [reflexivity|].
  now rewrite Hl, IH.
Qed.

(** A first end tag among the lines: the body is what stands before. *)
Lemma body_span_terminated (e : string) (mid : list string)
      (close : string) (post : list string) :
  Forall (fun l => is_end e l = false) mid ->
  is_end e close = true ->
  body_span e (mid ++ close :: post) = length mid.
Proof.
  intros Hmid Hclose. induction Hmid as [|l mid Hl _ IH]; cbn.
  - now rewrite Hclose.
  - now rewrite Hl, IH.
Qed.

(** What a block directive makes of the line at index [i]. *)
Lemma parse_line_block lines i name dtype e :
  tag_name (nth i lines "") = Some name ->
  of_value name = Some dtype ->
  _BLOCK_END_MAP name = Some e ->
  let rest := drop (i + 1) lines in
  parse_line lines i
  = Emit (mkDirective dtype (split_args (tag_raw_args (nth i lines "")))
            (Some (Py.join nl (take (body_span e rest) rest))) (i + 1))
         (i + 1 + body_span e rest + 1).
Proof.
  intros Hn Hv He rest. unfold parse_line.
  rewrite Hn, Hv, He, scan_body_spec. reflexivity.
Qed.

(** A directive carries the number of its line, and the loop moves on. *)
Lemma parse_line_emit lines i d next :
  parse_line lines i = Emit d next -> line d = i + 1 /\ i < next.
Proof.
  unfold parse_line.
  destruct (tag_name _); [|discriminate].
  destruct (of_value _); [|discriminate].
  destruct (_BLOCK_END_MAP _).
  - rewrite scan_body_spec. intros [= <- <-]. cbn. lia.
  - intros [= <- <-]. cbn. lia.
Qed.

(** The loop only ever appends to the directives found so far. *)
Lemma parse_loop_acc lines i acc :
  parse_loop lines i acc = acc ++ parse_loop lines i [].
Proof.
  remember (length lines - i) as n eqn:Hn.
  revert i acc Hn. induction n as [n IH] using lt_wf_ind. intros i acc ->.
  rewrite (parse_loop_unfold lines i acc), (parse_loop_unfold lines i []).
  destruct (decide (i < length lines)) as [Hi|Hi]; [|now rewrite app_nil_r].
  destruct (parse_line lines i) as [|d next] eqn:E.
  - eapply IH; [|reflexivity]. lia.
  - apply parse_line_emit in E as [_ Hnext].
    rewrite (IH (length lines - next)) by (reflexivity || lia).
    rewrite (IH (length lines - next) ltac:(lia) next ([] ++ [d]) eq_refl).
    now rewrite <- app_assoc.
Qed.

(** From a line the loop arrives at, the loop goes on as from the
    start, with the directives found on the way. *)
Lemma scan_to_parse lines i j :
  scan_to lines i j ->
  exists ds, forall acc,
    parse_loop lines i acc = parse_loop lines j (acc ++ ds).
Proof.
  induction 1 as [i | i j Hi E _ [ds IH] | i j d next Hi E _ [ds IH]].
  - exists []. intros acc. now rewrite app_nil_r.
  - exists ds. intros acc. rewrite (parse_loop_unfold lines i acc).
    rewrite decide_True by assumption. rewrite E. apply IH.
  - exists (d :: ds). intros acc. rewrite (parse_loop_unfold lines i acc).
    rewrite decide_True by assumption. rewrite E, IH.
    now rewrite <- app_assoc.
Qed.

(** A directive made at a line the loop arrives at is in the result. *)
Lemma reached_emitted text i d next :
  let lines := Py.split "010" text in
  reached lines i -> i < length lines ->
  parse_line lines i = Emit d next ->
  d ∈ parse_directives text.
Proof.
  intros lines Hr Hi E. unfold parse_directives. fold lines.
  destruct (scan_to_parse lines 0 i Hr) as [ds Hds].
  rewrite Hds, (parse_loop_unfold lines i).
  rewrite decide_True by assumption. rewrite E, parse_loop_acc.
  cbn. rewrite !elem_of_app, list_elem_of_singleton. auto.
Qed.

(** When the loop arrives at the opening tag of a block directive, the
    directive is in the result: with no end tag behind it, its body is
    all lines behind the opening line; with a first end tag behind it,
    the lines strictly between the two. *)
Lemma reached_block_body (text : string) (pre : list string) (opening : string)
        (rest : list string) (name : string) (dtype : DirectiveType)
        (end_tag : string) :
  Py.split "010" text = pre ++ opening :: rest ->
  reached (Py.split "010" text) (length pre) ->
  tag_name opening = Some name ->
  of_value name = Some dtype ->
  _BLOCK_END_MAP name = Some end_tag ->
  let args := split_args (tag_raw_args opening) in
  (Forall (fun l => is_end end_tag l = false) rest ->
     mkDirective dtype args (Some (Py.join nl rest)) (length pre + 1)
     ∈ parse_directives text)
  /\ (forall mid close post,
        rest = mid ++ close :: post ->
        Forall (fun l => is_end end_tag l = false) mid ->
        is_end end_tag close = true ->
        mkDirective dtype args (Some (Py.join nl mid)) (length pre + 1)
        ∈ parse_directives text).
Proof.
  intros Hsplit Hr Hn Hv He args.
  assert (Hi : length pre < length (Py.split "010" text)).
  { rewrite Hsplit, length_app. cbn. lia. }
  assert (Hnth : nth (length pre) (Py.split "010" text) "" = opening).
  { rewrite Hsplit, app_nth2, Nat.sub_diag by lia. reflexivity. }
  assert (Hdrop : drop (length pre + 1) (Py.split "010" text) = rest).
  { rewrite Hsplit. change (opening :: rest) with ([opening] ++ rest).
    rewrite app_assoc. apply drop_app_length'.
    rewrite length_app. cbn. lia. }
  pose proof (parse_line_block (Py.split "010" text) (length pre)
                name dtype end_tag) as Hline.
  rewrite Hnth, Hdrop in Hline.
  specialize (Hline Hn Hv He). cbn zeta in Hline.
  split.
  - intros Hun. rewrite (body_span_unterminated _ _ Hun) in Hline.
    rewrite firstn_all in Hline.
    eapply reached_emitted; eassumption.
  - intros mid close post -> Hmid Hclose.
    rewrite (body_span_terminated _ _ _ _ Hmid Hclose) in Hline.
    rewrite take_app_length in Hline.
    eapply reached_emitted; eassumption.
Qed.


(** ** Appending the closing tag to an unterminated block *)

Lemma scan_to_le lines i j : scan_to lines i j -> i <= j.
Proof.
  induction 1 as [i | i j Hi E _ IH | i j d next Hi E _ IH]; [lia|lia|].
  apply parse_line_emit in E. lia.
Qed.

(** A body that ends before the last line is not changed by one more
    line. *)
Lemma body_span_app_lt (e : string) (rest : list string) (c : string) :
  body_span e rest < length rest ->
  body_span e (rest ++ [c]) = body_span e rest.
Proof.
  induction rest as [|l rest IH]; cbn; [lia|].
  destruct (is_end e l); [reflexivity|]. intros H. rewrite IH; lia.
Qed.

(** One more line at the end changes no turn of the loop that stays
    within the old lines. *)
Lemma parse_line_app lines c i :
  i < length lines ->
  (parse_line lines i = Skip -> parse_line (lines ++ [c]) i = Skip)
  /\ (forall d next,
        parse_line lines i = Emit d next -> next <= length lines ->
        parse_line (lines ++ [c]) i = Emit d next).
Proof.
  intros Hi. unfold parse_line.
  rewrite (app_nth1 lines [c] "" Hi).
  destruct (tag_name (nth i lines "")) as [name|]; [|split; [auto|discriminate]].
  destruct (of_value name) as [dtype|]; [|split; [auto|discriminate]].
  destruct (_BLOCK_END_MAP name) as [e|].
  - rewrite !scan_body_spec. split; [discriminate|].
    intros d next [= <- <-] Hnext.
    rewrite drop_app_le by lia.
    assert (Hlt : body_span e (drop (i + 1) lines)
                  < length (drop (i + 1) lines)).
    { rewrite length_drop. lia. }
    rewrite (body_span_app_lt _ _ _ Hlt).
    rewrite take_app_le by lia. reflexivity.
  - split; [discriminate|]. intros d next [= <- <-] _. reflexivity.
Qed.

(** The parser makes the same directives of an unterminated block and of
    the same block closed by a last line that is its end tag. *)
Lemma parse_loop_closed lines c p name dtype e :
  p < length lines ->
  tag_name (nth p lines "") = Some name ->
  of_value name = Some dtype ->
  _BLOCK_END_MAP name = Some e ->
  Forall (fun l => is_end e l = false) (drop (p + 1) lines) ->
  is_end e c = true ->
  forall i, scan_to lines i p ->
  forall acc, parse_loop (lines ++ [c]) i acc = parse_loop lines i acc.
Proof.
  intros Hp Hn Hv He Hrest Hc i Hscan.
  induction Hscan as [p | i p Hi E Hs IH | i p d next Hi E Hs IH];
    intros acc.
  - rewrite (parse_loop_unfold (lines ++ [c])), (parse_loop_unfold lines).
    rewrite !decide_True by (rewrite ?length_app; cbn; lia).
    rewrite (parse_line_block lines p name dtype e Hn Hv He).
    rewrite (parse_line_block (lines ++ [c]) p name dtype e);
      [| rewrite (app_nth1 lines [c] "" Hp); exact Hn | exact Hv | exact He].
    rewrite (app_nth1 lines [c] "" Hp).
    rewrite drop_app_le by lia.
    rewrite (body_span_terminated e _ c [] Hrest Hc).
    rewrite (body_span_unterminated e _ Hrest).
    rewrite take_app_length, firstn_all, length_drop.
    rewrite (parse_loop_unfold (lines ++ [c])), (parse_loop_unfold lines).
    rewrite !decide_False by (rewrite ?length_app; cbn; lia).
    reflexivity.
  - rewrite (parse_loop_unfold (lines ++ [c])), (parse_loop_unfold lines).
    rewrite !decide_True by (rewrite ?length_app; cbn; lia).
    rewrite E, (proj1 (parse_line_app lines c i Hi) E).
    apply IH; assumption.
  - rewrite (parse_loop_unfold (lines ++ [c])), (parse_loop_unfold lines).
    rewrite !decide_True by (rewrite ?length_app; cbn; lia).
    apply scan_to_le in Hs as Hle.
    rewrite E, (proj2 (parse_line_app lines c i Hi) d next E) by lia.
    apply IH; assumption.
Qed.

(** The closing line of each block directive is an end tag for the
    parser, a single line, and a closing tag for the renderer. *)
Lemma closing_line_spec name e :
  _BLOCK_END_MAP name = Some e ->
  is_end e (closing_line e) = true
  /\ Py.split "010" (closing_line e) = [closing_line e]
  /\ DocxEngine.is_match DocxEngine.end_tag_re (Py.strip (closing_line e))
     = true.
Proof.
  unfold _BLOCK_END_MAP.
  destruct (String.eqb name "table");
    [intros [= <-]; vm_compute; auto|].
  destruct (String.eqb name "algorithm");
    [intros [= <-]; vm_compute; auto|].
  destruct (String.eqb name "raw-docx");
    [intros [= <-]; vm_compute; auto|discriminate].
Qed.

(** The lines of a text with one more line written behind it. *)
Lemma split_append_line text c :
  Py.split "010" c = [c] ->
  Py.split "010" (text +:+ nl +:+ c) = Py.split "010" text ++ [c].
Proof.
  intros Hc. change (nl +:+ c) with (String "010" c).
  now rewrite split_sep, Hc.
Qed.

(** Every directive of the result sits on a line of the text. *)
Lemma parse_loop_lines lines i acc d :
  d ∈ parse_loop lines i acc -> d ∈ acc \/ line d <= length lines.
Proof.
  remember (length lines - i) as n eqn:Hn.
  revert i acc Hn. induction n as [n IH] using lt_wf_ind. intros i acc ->.
  rewrite (parse_loop_unfold lines i acc).
  destruct (decide (i < length lines)) as [Hi|Hi]; [|auto].
  destruct (parse_line lines i) as [|d' next] eqn:E.
  - eapply IH; [|reflexivity]. lia.
  - apply parse_line_emit in E as [Hline Hnext]. intros Hd.
    apply (IH (length lines - next) ltac:(lia) next _ eq_refl) in Hd.
    destruct Hd as [Hd|Hd]; [|auto].
    apply elem_of_app in Hd as [Hd|Hd]; [auto|].
    apply list_elem_of_singleton in Hd as ->. right. lia.
Qed.

End ParserProps.
(* ===================================================================== *)
(** * Properties of the rendering loop *)
(* ===================================================================== *)

Module LoopProps.
Import Parser Docx DocxHelpers DocxEngine Props.

Lemma render_loop_unfold env cfg lines dm i buf s :
  render_loop env cfg lines dm i buf s =
  if decide (i < length lines) then
    match turn env cfg lines dm i buf s with
    | Ok (skip, buffer) s' =>
        render_loop env cfg lines dm (i + skip + 1) buffer s'
    | Raised s' => Raised s'
    end
  else flush_paragraph cfg buf s.
Proof.
  funelim (render_loop env cfg lines dm i buf s).
  - now rewrite decide_False by assumption.
  - rewrite decide_True by assumption. now rewrite Heq.
  - rewrite decide_True by assumption. now rewrite Heq.
Qed.

(** A turn reads the lines only at its own index. *)
Lemma turn_nth env cfg lines1 lines2 dm i buf s :
  nth i lines1 "" = nth i lines2 "" ->
  turn env cfg lines1 dm i buf s = turn env cfg lines2 dm i buf s.
Proof. intros H. unfold turn. now rewrite H. Qed.

(** The directive the map holds for a line is a directive of that
    line. *)
Lemma build_dir_map_lookup (ds : list Directive) k d :
  build_dir_map ds !! k = Some d -> d ∈ ds /\ line d = k.
Proof.
  unfold build_dir_map.
  assert (H : forall m : gmap nat Directive,
             foldl (fun m d => <[line d := d]> m) m ds !! k = Some d ->
             (d ∈ ds /\ line d = k) \/ m !! k = Some d).
  { induction ds as [|d' ds IH]; intros m; cbn; [auto|].
    intros Hl. apply IH in Hl as [[Hin Hk]|Hl].
    - left. split; [now apply list_elem_of_further|assumption].
    - rewrite lookup_insert in Hl. case_decide as Hd.
      + injection Hl as ->. left. split; [apply list_elem_of_here|assumption].
      + auto. }
  intros Hl. apply H in Hl as [?|Hl]; [assumption|].
  now rewrite lookup_empty in Hl.
Qed.

(** The map of a text has no directive beyond its last line. *)
Lemma dir_map_lines text k d :
  build_dir_map (parse_directives text) !! k = Some d ->
  k <= length (Py.split "010" text).
Proof.
  intros H. apply build_dir_map_lookup in H as [Hin <-].
  apply ParserProps.parse_loop_lines in Hin as [Hin|Hin]; [|assumption].
  now apply elem_of_nil in Hin.
Qed.

(** A last line that is a closing tag, and that the map gives no
    directive for, changes nothing in the rendering. *)
Lemma render_loop_closed env cfg lines c dm :
  (forall k d, dm !! k = Some d -> k <= length lines) ->
  is_match end_tag_re (Py.strip c) = true ->
  forall i buf s,
    render_loop env cfg (lines ++ [c]) dm i buf s
    = render_loop env cfg lines dm i buf s.
Proof.
  intros Hdm Hc i.
  remember (length lines + 1 - i) as n eqn:Hn.
  revert i Hn. induction n as [n IH] using lt_wf_ind. intros i -> buf s.
  rewrite (render_loop_unfold env cfg (lines ++ [c])),
          (render_loop_unfold env cfg lines).
  rewrite length_app. cbn [length].
  destruct (decide (i < length lines)) as [Hi|Hi].
  - rewrite decide_True by lia.
    rewrite (turn_nth env cfg (lines ++ [c]) lines)
      by (apply app_nth1; exact Hi).
    destruct (turn env cfg lines dm i buf s) as [[skip buffer] s'|s'];
      [|reflexivity].
    eapply IH; [|reflexivity]. lia.
  - destruct (decide (i < length lines + 1)) as [Hi'|Hi']; [|reflexivity].
    assert (i = length lines) as -> by lia.
    assert (Hturn : turn env cfg (lines ++ [c]) dm (length lines) buf s
                    = Ok (0, buf) s).
    { unfold turn.
      destruct (dm !! (length lines + 1)) as [d|] eqn:Hd.
      - apply Hdm in Hd. lia.
      - rewrite app_nth2, Nat.sub_diag by lia. cbn [nth].
        now rewrite Hc. }
    rewrite Hturn, render_loop_unfold, length_app. cbn [length].
    now rewrite decide_False by lia.
Qed.

(** C8, as amended: an unterminated block directive is taken to the end
    of the text without any warning: parsing gives the same directives,
    and rendering the same result, as for the same text with the closing
    tag written as a last line. *)
Theorem unterminated_block_silent (text : string) (pre : list string)
        (opening : string) (rest : list string) (name : string)
        (dtype : DirectiveType) (end_tag : string) :
  Py.split "010" text = pre ++ opening :: rest ->
  reached (Py.split "010" text) (length pre) ->
  tag_name opening = Some name ->
  of_value name = Some dtype ->
  _BLOCK_END_MAP name = Some end_tag ->
  Forall (fun l => is_end end_tag l = false) rest ->
  let closed := text +:+ nl +:+ closing_line end_tag in
  parse_directives closed = parse_directives text
  /\ forall env cfg s,
       _render_markdown env cfg closed s = _render_markdown env cfg text s.
Proof.
  intros Hsplit Hr Hn Hv He Hrest closed. subst closed.
  destruct (ParserProps.closing_line_spec name end_tag He)
    as (Hend & Hone & Hre).
  assert (Hparse : parse_directives (text +:+ nl +:+ closing_line end_tag)
                   = parse_directives text).
  { unfold parse_directives.
    rewrite (ParserProps.split_append_line text _ Hone).
    apply (ParserProps.parse_loop_closed _ _ (length pre) name dtype end_tag);
      try assumption.
    - rewrite Hsplit, length_app. cbn. lia.
    - rewrite Hsplit, app_nth2, Nat.sub_diag by lia. exact Hn.
    - rewrite Hsplit. change (opening :: rest) with ([opening] ++ rest).
      rewrite app_assoc, drop_app_length'; [exact Hrest|].
      rewrite length_app. cbn. lia. }
  split; [exact Hparse|]. intros env cfg s. unfold _render_markdown.
  rewrite Hparse, (ParserProps.split_append_line text _ Hone).
  apply render_loop_closed; [|exact Hre].
  intros k d. apply dir_map_lines.
Qed.

Lemma unterminated_block_silent_witness :
  let text := "<!-- algorithm: a1 | Sort -->" +:+ nl +:+ "step 1" in
  parse_directives (text +:+ nl +:+ "<!-- /algorithm -->")
  = parse_directives text.
Proof.
  intros text.
  apply (unterminated_block_silent text [] "<!-- algorithm: a1 | Sort -->"
           ["step 1"] "algorithm" ALGORITHM "/algorithm").
  - vm_compute. reflexivity.
  - apply scan_here.
  - vm_compute. reflexivity.
  - vm_compute. reflexivity.
  - vm_compute. reflexivity.
  - repeat constructor.
Defined.

(** C8, as stated, fails: the unterminated table below and the same
    table with its closing tag give the same directives and the same
    rendering, in every environment and configuration. *)
Lemma unterminated_table_counterexample :
  let text := "<!-- table: t1 | cap -->" +:+ nl +:+ "a|b" in
  let closed := text +:+ nl +:+ "<!-- /table -->" in
  parse_directives closed = parse_directives text
  /\ forall env cfg s,
       _render_markdown env cfg closed s = _render_markdown env cfg text s.
Proof.
  intros text closed.
  assert (Hparse : parse_directives closed = parse_directives text)
    by (vm_compute; reflexivity).
  split; [exact Hparse|]. intros env cfg s. unfold _render_markdown.
  rewrite Hparse.
  replace (Py.split "010" closed)
    with (Py.split "010" text ++ ["<!-- /table -->"])
    by (vm_compute; reflexivity).
  apply render_loop_closed; [|vm_compute; reflexivity].
  intros k d. apply dir_map_lines.
Qed.

End LoopProps.
(* ===================================================================== *)
(** * Numbering: counters and the label map *)
(* ===================================================================== *)

Module NumberingProps.
Import Parser Docx DocxHelpers DocxEngine Props.

(** Unfolds the monadic code of the engine down to states. *)
Ltac run :=
  unfold _insert_figure, _insert_equation, _insert_table_caption,
    _insert_algorithm_caption, _render_table_body, insert_paragraph,
    flush_paragraph, label_store, place, modify, gets, raise,
    mbind, M_bind, mret, M_ret in *;
  cbn [final_state] in *.

(** Placing the paragraph buffer never raises and leaves the numbering
    alone. *)
Lemma flush_paragraph_ok cfg buf s :
  exists s', flush_paragraph cfg buf s = Ok tt s'
             /\ numbering s' = numbering s
             /\ _omml_cache s' = _omml_cache s.
Proof.
  run. destruct buf; [eauto|].
  destruct (Py.truthy _); eauto.
Qed.

Lemma insert_lines_numbering env blines s :
  numbering (final_state (insert_lines env blines s)) = numbering s.
Proof.
  revert s. induction blines as [|b blines IH]; intros s; [reflexivity|].
  cbn [insert_lines]. run.
  destruct (has_style env "Normal"); [|reflexivity].
  rewrite IH. reflexivity.
Qed.

(** Splits on every test the code makes on the world outside. *)
Ltac split_cases :=
  repeat match goal with
    | |- context [if ?b then _ else _] => destruct b eqn:?
    | |- context [match ?x with _ => _ end] => destruct x eqn:?
    end.

(** Rendering a directive, whether it returns or raises, adds one to the
    counter of its category and leaves the other counters alone. *)
Lemma render_directive_counters env cfg d s :
  let s' := final_state (render_directive env cfg d s) in
  _fig_counter s' = _fig_counter s + one_if FIGURE d
  /\ _tbl_counter s' = _tbl_counter s + one_if TABLE d
  /\ _eq_counter s' = _eq_counter s + one_if EQUATION d
  /\ _alg_counter s' = _alg_counter s + one_if ALGORITHM d.
Proof.
  unfold render_directive, one_if.
  destruct (type d) eqn:Ht; cbn zeta;
    repeat (destruct (decide _) as [?|?]; try discriminate; try congruence).
  5: { (* an algorithm: the caption, then the lines of the body *)
    run. destruct (Py.truthy_opt (body d)); cbn.
    - match goal with
      | |- context [insert_lines env ?l ?s0] =>
          pose proof (insert_lines_numbering env l s0) as Hn
      end.
      injection Hn as -> -> -> -> _. cbn. lia.
    - lia. }
  all: run; split_cases; cbn; lia.
Qed.

(** A directive that is rendered without raising does to the numbering
    state what [number] says. *)
Lemma render_directive_numbering env cfg d s s' :
  render_directive env cfg d s = Ok tt s' ->
  numbering s' = number cfg (numbering s) d.
Proof.
  unfold render_directive, number, qualified, reference, counter_of.
  destruct (type d) eqn:Ht; cbn zeta.
  5: { (* an algorithm *)
    run. destruct (Py.truthy_opt (body d)); cbn.
    - intros H.
      match type of H with
      | insert_lines env ?l ?s0 = _ =>
          pose proof (insert_lines_numbering env l s0) as Hn
      end.
      rewrite H in Hn. cbn in Hn. rewrite Hn. reflexivity.
    - intros [= <-]. reflexivity. }
  all: run; split_cases; cbn; intros [= <-]; reflexivity.
Qed.

(** One turn of the loop: how far it skips and what it does to the
    numbering state. *)
Lemma turn_numbering env cfg lines dm i buf s r s' :
  turn env cfg lines dm i buf s = Ok r s' ->
  match dm !! (i + 1) with
  | Some d => r.1 = extra d /\ numbering s' = number cfg (numbering s) d
  | None => r.1 = 0 /\ numbering s' = numbering s
  end.
Proof.
  unfold turn. destruct (dm !! (i + 1)) as [d|].
  - destruct (flush_paragraph_ok cfg buf s) as (s1 & Hf & Hn & _).
    unfold mbind, M_bind. rewrite Hf.
    destruct (render_directive env cfg d s1) as [[] s2|s2] eqn:Hd;
      [|discriminate].
    apply render_directive_numbering in Hd. rewrite Hn in Hd.
    unfold extra. destruct (body d); intros [= <- <-]; cbn; split;
      (lia || assumption).
  - run. split_cases; intros [= <- <-]; cbn; split; reflexivity.
Qed.

(** The numbering state after some turns is the numbering state before
    them, run through the directives they rendered. *)
Lemma turns_numbering env cfg lines dm n :
  forall i buf s r s',
    turns env cfg lines dm n i buf s = Ok r s' ->
    numbering s' = foldl (number cfg) (numbering s) (dispatched lines dm n i).
Proof.
  induction n as [|n IH]; intros i buf s r s'; cbn [turns dispatched].
  - intros [= _ <-]. reflexivity.
  - destruct (decide (i < length lines)); [|intros [= _ <-]; reflexivity].
    unfold mbind, M_bind.
    destruct (turn env cfg lines dm i buf s) as [r1 s1|s1] eqn:Ht;
      [|discriminate].
    apply turn_numbering in Ht. intros Hrest. apply IH in Hrest.
    destruct (dm !! (i + 1)) as [d|]; destruct Ht as [Hskip Hnum];
      rewrite Hskip, Hnum in Hrest.
    + exact Hrest.
    + now rewrite Nat.add_0_r in Hrest.
Qed.

(** The loop of [_render_markdown] is its turns, as many as there are
    lines left, and the last flush of the paragraph buffer. *)
Lemma render_loop_turns env cfg lines dm n :
  forall i buf s,
    length lines - i <= n ->
    render_loop env cfg lines dm i buf s
    = (r ← turns env cfg lines dm n i buf ;
       flush_paragraph cfg r.2) s.
Proof.
  induction n as [|n IH]; intros i buf s Hn;
    rewrite LoopProps.render_loop_unfold; cbn [turns].
  - rewrite decide_False by lia. reflexivity.
  - destruct (decide (i < length lines)); [|reflexivity].
    unfold mbind, M_bind.
    destruct (turn env cfg lines dm i buf s) as [[skip buffer] s1|s1];
      [|reflexivity].
    cbn [fst snd]. rewrite IH by lia. reflexivity.
Qed.

(** The numbering state at the end of [_render_markdown]. *)
Lemma render_markdown_numbering env cfg content s s' :
  let lines := Py.split "010" content in
  let dm := build_dir_map (parse_directives content) in
  _render_markdown env cfg content s = Ok tt s' ->
  numbering s'
  = foldl (number cfg) (numbering s) (dispatched lines dm (length lines) 0).
Proof.
  intros lines dm. unfold _render_markdown. fold lines dm.
  rewrite (render_loop_turns env cfg lines dm (length lines)) by lia.
  unfold mbind, M_bind.
  destruct (turns env cfg lines dm (length lines) 0 [] s) as [r s1|s1] eqn:Ht;
    [|discriminate].
  apply turns_numbering in Ht.
  destruct (flush_paragraph_ok cfg r.2 s1) as (s2 & Hf & Hn & _).
  rewrite Hf. intros [= <-]. now rewrite Hn.
Qed.

Lemma count_type_cons t d ds :
  count_type t (d :: ds) = one_if t d + count_type t ds.
Proof.
  unfold count_type, one_if. rewrite filter_cons.
  destruct (decide (type d = t)); reflexivity.
Qed.

Lemma count_type_app t ds1 ds2 :
  count_type t (ds1 ++ ds2) = count_type t ds1 + count_type t ds2.
Proof. unfold count_type. now rewrite filter_app, length_app. Qed.

Lemma number_counter cfg t n d :
  numbered t ->
  counter_of t (number cfg n d) = counter_of t n + one_if t d.
Proof.
  unfold number, one_if.
  intros [-> | [-> | [-> | ->]]]; destruct (type d);
    repeat case_decide; try congruence; cbn; lia.
Qed.

(** Each counter, after a list of directives is rendered, has grown by
    the number of directives of its category in the list. *)
Lemma replay_counter cfg t ds :
  numbered t ->
  forall n,
    counter_of t (foldl (number cfg) n ds) = counter_of t n + count_type t ds.
Proof.
  intros Ht. induction ds as [|d ds IH]; intros n; cbn [foldl].
  - unfold count_type. cbn. lia.
  - rewrite IH, number_counter, count_type_cons by assumption. lia.
Qed.

(** Rendering a directive writes at most the entry of its own qualified
    label. *)
Lemma number_other cfg n d key :
  qualified d <> Some key ->
  refs (number cfg n d) !! key = refs n !! key.
Proof.
  unfold number. intros Hq.
  destruct (qualified d) as [k|] eqn:Hk.
  - assert (k <> key) by congruence.
    destruct (type d); cbn; try reflexivity; now rewrite lookup_insert_ne.
  - destruct (type d); reflexivity.
Qed.

(** It writes that entry whatever the map held for it. *)
Lemma number_own cfg n d key :
  qualified d = Some key ->
  refs (number cfg n d) !! key
  = Some (reference cfg (type d) (counter_of (type d) n + 1)).
Proof.
  unfold number. intros Hq. rewrite Hq.
  unfold qualified in Hq.
  destruct (type d); try discriminate; cbn; apply lookup_insert_eq.
Qed.

Lemma qualified_numbered d key : qualified d = Some key -> numbered (type d).
Proof.
  unfold qualified, numbered. destruct (type d); try discriminate; auto.
Qed.

Lemma replay_other cfg key ds :
  Forall (fun d => qualified d <> Some key) ds ->
  forall n, refs (foldl (number cfg) n ds) !! key = refs n !! key.
Proof.
  induction 1 as [|d ds Hd _ IH]; intros n; cbn [foldl]; [reflexivity|].
  now rewrite IH, number_other.
Qed.

(** The entry of a qualified label, after a list of directives is
    rendered, is the reference of the last directive with that label. *)
Lemma replay_last_write cfg n before d after key :
  qualified d = Some key ->
  Forall (fun d' => qualified d' <> Some key) after ->
  refs (foldl (number cfg) n (before ++ d :: after)) !! key
  = Some (reference cfg (type d)
            (counter_of (type d) n + count_type (type d) before + 1)).
Proof.
  intros Hq Hafter. rewrite foldl_app. cbn [foldl].
  rewrite (replay_other cfg key after Hafter).
  rewrite (number_own cfg _ d key Hq).
  rewrite replay_counter by (eapply qualified_numbered; eassumption).
  reflexivity.
Qed.

Lemma reset_counter t s0 : counter_of t (numbering (reset s0)) = 0.
Proof. destruct t; reflexivity. Qed.

(** The counters of a state are those of its numbering. *)
Lemma counters_of_numbering s :
  _fig_counter s = counter_of FIGURE (numbering s)
  /\ _tbl_counter s = counter_of TABLE (numbering s)
  /\ _eq_counter s = counter_of EQUATION (numbering s)
  /\ _alg_counter s = counter_of ALGORITHM (numbering s).
Proof. repeat split. Qed.

(** C1: in every build each of the four counters goes up by exactly one
    for each directive of its category that is rendered, whatever the
    labels are, and is never lowered or reset on the way: rendering a
    directive adds one to the counter of its category and nothing to the
    others, also when it raises; after any number of turns of the loop,
    and at the end of the build, each counter is the number of
    directives of its category rendered so far, so the first instance
    is numbered 1. *)
Theorem counter_monotonicity env cfg (content : string) (s0 : State) :
  let text := _strip_front_matter content in
  let lines := Py.split "010" text in
  let dm := build_dir_map (parse_directives text) in
  (forall d s,
     let s' := final_state (render_directive env cfg d s) in
     _fig_counter s' = _fig_counter s + one_if FIGURE d
     /\ _tbl_counter s' = _tbl_counter s + one_if TABLE d
     /\ _eq_counter s' = _eq_counter s + one_if EQUATION d
     /\ _alg_counter s' = _alg_counter s + one_if ALGORITHM d)
  /\ (forall n r s,
        turns env cfg lines dm n 0 [] (reset s0) = Ok r s ->
        let ds := dispatched lines dm n 0 in
        _fig_counter s = count_type FIGURE ds
        /\ _tbl_counter s = count_type TABLE ds
        /\ _eq_counter s = count_type EQUATION ds
        /\ _alg_counter s = count_type ALGORITHM ds)
  /\ (forall s,
        build env cfg content s0 = (true, s) ->
        let ds := dispatched lines dm (length lines) 0 in
        _fig_counter s = count_type FIGURE ds
        /\ _tbl_counter s = count_type TABLE ds
        /\ _eq_counter s = count_type EQUATION ds
        /\ _alg_counter s = count_type ALGORITHM ds).
Proof.
  intros text lines dm.
  assert (Hcount : forall s ds,
             numbering s = foldl (number cfg) (numbering (reset s0)) ds ->
             _fig_counter s = count_type FIGURE ds
             /\ _tbl_counter s = count_type TABLE ds
             /\ _eq_counter s = count_type EQUATION ds
             /\ _alg_counter s = count_type ALGORITHM ds).
  { intros s ds Hn.
    destruct (counters_of_numbering s) as (-> & -> & -> & ->).
    rewrite Hn, !replay_counter, !reset_counter by (unfold numbered; auto).
    repeat split. }
  split; [|split].
  - intros d s. apply render_directive_counters.
  - intros n r s Ht ds. apply Hcount. eapply turns_numbering. exact Ht.
  - intros s Hb ds. apply Hcount. unfold build in Hb. fold text in Hb.
    destruct (_render_markdown env cfg text (reset s0)) as [[] s1|s1] eqn:Hr;
      [|discriminate].
    injection Hb as <-.
    apply (render_markdown_numbering env cfg text (reset s0) s1 Hr).
Qed.

Lemma counter_monotonicity_witness :
  let content :=
    "<!-- figure: a | x.png | One -->" +:+ nl +:+
    "<!-- figure: a | y.png | Two -->" +:+ nl +:+
    "<!-- equation: e | x^2 -->" in
  let s := (build (bare_project "/proj") immediate content init).2 in
  _fig_counter s = 2 /\ _tbl_counter s = 0
  /\ _eq_counter s = 1 /\ _alg_counter s = 0.
Proof.
  intros content s.
  destruct (counter_monotonicity (bare_project "/proj") immediate
              content init) as (_ & _ & H).
  apply (H s). vm_compute. reflexivity.
Defined.

(** C9: when directives of one category use the same label in a build,
    the label map holds at the end the reference of the one rendered
    last: rendering a labeled directive writes the entry of its
    qualified label whatever the map held for it, so an earlier instance
    is silently replaced. *)
Theorem duplicate_label_last_wins env cfg (content : string)
        (s0 s : State) (before : list Directive) (d : Directive)
        (after : list Directive) (key : string) :
  let lines := Py.split "010" content in
  let dm := build_dir_map (parse_directives content) in
  _render_markdown env cfg content (reset s0) = Ok tt s ->
  dispatched lines dm (length lines) 0 = before ++ d :: after ->
  qualified d = Some key ->
  Forall (fun d' => qualified d' <> Some key) after ->
  _labels s !! key
  = Some (reference cfg (type d) (count_type (type d) before + 1))
  /\ (forall s1 s2,
        render_directive env cfg d s1 = Ok tt s2 ->
        _labels s2 !! key
        = Some (reference cfg (type d)
                  (counter_of (type d) (numbering s1) + 1))).
Proof.
  intros lines dm Hr Hds Hq Hafter. split.
  - apply render_markdown_numbering in Hr. fold lines dm in Hr.
    rewrite Hds in Hr.
    change (_labels s) with (refs (numbering s)). rewrite Hr.
    rewrite (replay_last_write cfg _ before d after key Hq Hafter).
    now rewrite reset_counter.
  - intros s1 s2 Hd. apply render_directive_numbering in Hd.
    change (_labels s2) with (refs (numbering s2)). rewrite Hd.
    now apply number_own.
Qed.

Lemma duplicate_label_last_wins_witness :
  let content :=
    "<!-- figure: a | x.png | One -->" +:+ nl +:+
    "text" +:+ nl +:+
    "<!-- figure: a | y.png | Two -->" in
  let s := final_state
             (_render_markdown (bare_project "/proj") immediate content
                               (reset init)) in
  _labels s !! "fig:a" = Some (zu +:+ "2").
Proof.
  intros content s.
  apply (duplicate_label_last_wins (bare_project "/proj") immediate content
           init s
           [mkDirective FIGURE ["a"; "x.png"; "One"] None 1]
           (mkDirective FIGURE ["a"; "y.png"; "Two"] None 3)
           [] "fig:a").
  - vm_compute. reflexivity.
  - vm_compute. reflexivity.
  - reflexivity.
  - constructor.
Defined.

End NumberingProps.
(* ===================================================================== *)
(** * Cross-references in immediate mode *)
(* ===================================================================== *)

Module CrossRefProps.
Import Parser Docx DocxHelpers DocxEngine Props.

Lemma of_value_value name t : of_value name = Some t -> value t = name.
Proof.
  unfold of_value, members. cbn [List.find].
  repeat match goal with
    | |- context [String.eqb ?a name] =>
        destruct (String.eqb_spec a name);
        [intros [= <-]; assumption|]
    end.
  discriminate.
Qed.

(** A directive has a body exactly when its type is that of a block. *)
Lemma parse_line_body lines i d next :
  parse_line lines i = Emit d next ->
  body d = None <-> _BLOCK_END_MAP (value (type d)) = None.
Proof.
  unfold parse_line.
  destruct (tag_name _) as [name|]; [|discriminate].
  destruct (of_value name) as [t|] eqn:Hv; [|discriminate].
  apply of_value_value in Hv. subst name.
  destruct (_BLOCK_END_MAP (value t)) as [e|] eqn:He.
  - rewrite ParserProps.scan_body_spec. intros [= <- <-]. cbn.
    rewrite He. split; discriminate.
  - intros [= <- <-]. cbn. now rewrite He.
Qed.

Lemma parse_loop_body lines i acc d :
  d ∈ parse_loop lines i acc ->
  d ∈ acc \/ (body d = None <-> _BLOCK_END_MAP (value (type d)) = None).
Proof.
  remember (length lines - i) as n eqn:Hn.
  revert i acc Hn. induction n as [n IH] using lt_wf_ind. intros i acc ->.
  rewrite (ParserProps.parse_loop_unfold lines i acc).
  destruct (decide (i < length lines)) as [Hi|Hi]; [|auto].
  destruct (parse_line lines i) as [|d' next] eqn:E.
  - eapply IH; [|reflexivity]. lia.
  - pose proof (parse_line_body _ _ _ _ E) as Hb.
    apply ParserProps.parse_line_emit in E as [_ Hnext]. intros Hd.
    apply (IH (length lines - next) ltac:(lia) next _ eq_refl) in Hd.
    destruct Hd as [Hd|Hd]; [|auto].
    apply elem_of_app in Hd as [Hd|Hd]; [auto|].
    apply list_elem_of_singleton in Hd as ->. auto.
Qed.

(** A reference directive of a text has no body. *)
Lemma ref_no_body content k d :
  build_dir_map (parse_directives content) !! k = Some d ->
  type d = REF -> body d = None.
Proof.
  intros Hk Ht. apply LoopProps.build_dir_map_lookup in Hk as [Hin _].
  apply parse_loop_body in Hin as [Hin|Hb].
  - now apply elem_of_nil in Hin.
  - apply Hb. now rewrite Ht.
Qed.

(** A reference in immediate mode is a paragraph with what the label map
    holds for the label, or with the label in brackets. *)
Lemma render_ref_immediate env cfg d s :
  seq_mode cfg = false ->
  type d = REF ->
  let label := Py.or_empty (Parser.label d) in
  render_directive env cfg d s
  = Ok tt (set_doc
             (doc s ++
              [Para (mkParagraph None false None
                 (text_content
                    (default ("[" +:+ label +:+ "]") (_labels s !! label))))])
             s).
Proof.
  intros Hm Ht label. unfold render_directive. rewrite Ht, Hm.
  reflexivity.
Qed.



End CrossRefProps.
(* ===================================================================== *)
(** * The lines the parser arrives at *)
(* ===================================================================== *)

Module ReachedProps.
Import Parser Docx DocxHelpers DocxEngine Props.

Lemma scan_to_trans lines i j k :
  scan_to lines i j -> scan_to lines j k -> scan_to lines i k.
Proof.
  induction 1 as [i | i j Hi E _ IH | i j d next Hi E _ IH]; intros Hk.
  - exact Hk.
  - eapply scan_skip; eauto.
  - eapply scan_emit; eauto.
Qed.

(** Every directive of the result was made at a line the loop arrived
    at. *)
Lemma parse_loop_reached lines i acc d :
  reached lines i ->
  d ∈ parse_loop lines i acc ->
  d ∈ acc
  \/ exists j next,
       reached lines j /\ j < length lines
       /\ parse_line lines j = Emit d next.
Proof.
  remember (length lines - i) as n eqn:Hn.
  revert i acc Hn. induction n as [n IH] using lt_wf_ind.
  intros i acc -> Hr.
  rewrite (ParserProps.parse_loop_unfold lines i acc).
  destruct (decide (i < length lines)) as [Hi|Hi]; [|auto].
  destruct (parse_line lines i) as [|d' next] eqn:E.
  - apply (IH (length lines - (i + 1)) ltac:(lia) (i + 1) _ eq_refl).
    eapply scan_to_trans; [exact Hr|].
    eapply scan_skip; [exact Hi|exact E|apply scan_here].
  - pose proof (ParserProps.parse_line_emit _ _ _ _ E) as [_ Hnext].
    intros Hd.
    apply (IH (length lines - next) ltac:(lia) next _ eq_refl) in Hd.
    + destruct Hd as [Hd|Hd]; [|auto].
      apply elem_of_app in Hd as [Hd|Hd]; [auto|].
      apply list_elem_of_singleton in Hd as ->. right. eauto.
    + eapply scan_to_trans; [exact Hr|].
      eapply scan_emit; [exact Hi|exact E|apply scan_here].
Qed.

Lemma emitted_reached text d :
  let lines := Py.split "010" text in
  d ∈ parse_directives text ->
  exists j next,
    reached lines j /\ j < length lines /\ parse_line lines j = Emit d next.
Proof.
  intros lines Hd. apply parse_loop_reached in Hd; [|apply scan_here].
  destruct Hd as [Hd|Hd]; [now apply elem_of_nil in Hd|exact Hd].
Qed.
(** The lines behind an opening line hold no end tag, or a first one. *)
Lemma body_span_cases (e : string) (rest : list string) :
  (Forall (fun l => is_end e l = false) rest
   /\ take (body_span e rest) rest = rest)
  \/ exists mid close post,
       rest = mid ++ close :: post
       /\ Forall (fun l => is_end e l = false) mid
       /\ is_end e close = true
       /\ take (body_span e rest) rest = mid.
Proof.
  induction rest as [|l rest IH]; [left; split; [constructor|reflexivity]|].
  cbn [body_span]. destruct (is_end e l) eqn:El.
  - right. exists [], l, rest. repeat split; try constructor; assumption.
  - destruct IH as [[Hall Ht]|(mid & close & post & -> & Hmid & Hc & Ht)].
    + left. split; [now constructor|]. cbn. now rewrite Ht.
    + right. exists (l :: mid), close, post.
      repeat split; try assumption; [now constructor|]. cbn. now rewrite Ht.
Qed.

(** C2: the body of every block directive (table, algorithm, raw block)
    that [parse_directives] gives is, when no line behind the opening
    tag is its end tag, all lines behind the opening line up to the end
    of the text, joined as they are, and otherwise the lines strictly
    between the opening line and the first end-tag line, joined as they
    are, the tag lines left out; and whenever the loop arrives at the
    opening tag of a block directive, that directive is in the result
    with that body. *)
Theorem block_body (text : string) :
  let lines := Py.split "010" text in
  (forall d b,
     d ∈ parse_directives text ->
     body d = Some b ->
     exists pre opening rest e,
       lines = pre ++ opening :: rest
       /\ line d = length pre + 1
       /\ tag_name opening = Some (value (type d))
       /\ _BLOCK_END_MAP (value (type d)) = Some e
       /\ ((Forall (fun l => is_end e l = false) rest
            /\ b = Py.join nl rest)
           \/ exists mid close post,
                rest = mid ++ close :: post
                /\ Forall (fun l => is_end e l = false) mid
                /\ is_end e close = true
                /\ b = Py.join nl mid))
  /\ (forall pre opening rest name dtype e,
        lines = pre ++ opening :: rest ->
        reached lines (length pre) ->
        tag_name opening = Some name ->
        of_value name = Some dtype ->
        _BLOCK_END_MAP name = Some e ->
        let args := split_args (tag_raw_args opening) in
        (Forall (fun l => is_end e l = false) rest ->
           mkDirective dtype args (Some (Py.join nl rest)) (length pre + 1)
           ∈ parse_directives text)
        /\ (forall mid close post,
              rest = mid ++ close :: post ->
              Forall (fun l => is_end e l = false) mid ->
              is_end e close = true ->
              mkDirective dtype args (Some (Py.join nl mid))
                          (length pre + 1)
              ∈ parse_directives text)).
Proof.
  intros lines. split.
  - intros d b Hd Hb.
    destruct (emitted_reached text d Hd) as (j & next & Hr & Hj & E).
    fold lines in Hr, Hj, E.
    pose proof (ParserProps.parse_line_emit _ _ _ _ E) as [Hline _].
    assert (Hmid : lines = take j lines ++ nth j lines "" :: drop (S j) lines).
    { symmetry. apply take_drop_middle.
      destruct (nth_lookup_or_length lines j "") as [Hl|Hl]; [exact Hl|lia]. }
    unfold parse_line in E.
    destruct (tag_name (nth j lines "")) as [name|] eqn:Hn; [|discriminate].
    destruct (of_value name) as [t|] eqn:Hv; [|discriminate].
    apply CrossRefProps.of_value_value in Hv. subst name.
    destruct (_BLOCK_END_MAP (value t)) as [e|] eqn:He.
    2:{ injection E as <- <-. discriminate Hb. }
    rewrite ParserProps.scan_body_spec in E. injection E as <- <-.
    cbn [type body line] in *. injection Hb as <-.
    exists (take j lines), (nth j lines ""), (drop (S j) lines), e.
    rewrite length_take, Nat.min_l by lia.
    replace (j + 1) with (S j) by lia.
    repeat split; try assumption; try reflexivity.
    destruct (body_span_cases e (drop (S j) lines))
      as [[Hall Ht]|(mid & close & post & Hrest & Hm & Hc & Ht)].
    + left. split; [exact Hall|]. now rewrite Ht.
    + right. exists mid, close, post. rewrite Ht. auto.
  - intros pre opening rest name dtype e Hl Hr Hn Hv He.
    apply (ParserProps.reached_block_body text pre opening rest name dtype e);
      assumption.
Qed.

Lemma block_body_witness :
  mkDirective TABLE ["t1"; "cap"] (Some ("a|b" +:+ nl +:+ nl +:+ "x")) 2
  ∈ parse_directives
      ("intro" +:+ nl +:+ "<!-- table: t1 | cap -->" +:+ nl +:+
       "a|b" +:+ nl +:+ nl +:+ "x").
Proof.
  apply (proj2 (block_body
           ("intro" +:+ nl +:+ "<!-- table: t1 | cap -->" +:+ nl +:+
            "a|b" +:+ nl +:+ nl +:+ "x"))
           ["intro"] "<!-- table: t1 | cap -->" ["a|b"; ""; "x"]
           "table" TABLE "/table").
  - vm_compute. reflexivity.
  - apply scan_skip with (i := 0).
    + vm_compute. lia.
    + vm_compute. reflexivity.
    + apply scan_here.
  - vm_compute. reflexivity.
  - vm_compute. reflexivity.
  - vm_compute. reflexivity.
  - repeat constructor.
Defined.

End ReachedProps.

(* ===================================================================== *)
(** * The forward scan of the renderer *)
(* ===================================================================== *)

Module ScanProps.
Import Parser Docx DocxHelpers DocxEngine Props.

Lemma count_app (c : ascii) (a b : string) :
  Py.count c (a +:+ b) = Py.count c a + Py.count c b.
Proof.
  induction a as [|x a IH]; [reflexivity|].
  change (String x a +:+ b) with (String x (a +:+ b)).
  cbn [Py.count]. rewrite IH. lia.
Qed.

(** No line of a split text holds the separator. *)
Lemma split_no_sep (sep : ascii) (s : string) :
  Forall (fun l => Py.count sep l = 0) (Py.split sep s).
Proof.
  induction s as [|c s IH]; [repeat constructor|].
  rewrite ParserProps.split_cons.
  destruct (Ascii.eqb c sep) eqn:E.
  - constructor; [reflexivity|assumption].
  - destruct (Py.split sep s) as [|x r]; [repeat constructor; cbn; now rewrite E|].
    inversion IH as [|? ? Hx Hr]; subst.
    constructor; [cbn; now rewrite E, Hx|assumption].
Qed.

(** Joined lines hold one separator less than there are lines. *)
Lemma count_join (sep : ascii) (ls : list string) :
  Forall (fun l => Py.count sep l = 0) ls ->
  Py.count sep (Py.join (String sep "") ls) = length ls - 1.
Proof.
  induction 1 as [|l ls Hl Hls IH]; [reflexivity|].
  destruct ls as [|l' ls]; [cbn; exact Hl|].
  change (Py.join (String sep "") (l :: l' :: ls))
    with (l +:+ String sep (Py.join (String sep "") (l' :: ls))).
  rewrite count_app, Hl. cbn [Py.count]. rewrite Ascii.eqb_refl, IH.
  cbn [length]. lia.
Qed.

(** Where the renderer goes on behind a directive, against where the
    parser went on: the same line, except behind a block with no body
    line at all, where the renderer is one line further. *)
Lemma render_skip_vs_parse_skip text i d next :
  let lines := Py.split "010" text in
  parse_line lines i = Emit d next ->
  i + extra d + 1 = if decide (next = i + 2 /\ body d <> None)
                    then next + 1 else next.
Proof.
  intros lines. unfold parse_line.
  destruct (tag_name _) as [name|]; [|discriminate].
  destruct (of_value name) as [t|]; [|discriminate].
  destruct (_BLOCK_END_MAP name) as [e|].
  - rewrite ParserProps.scan_body_spec. intros [= <- <-].
    unfold extra. cbn [body].
    rewrite count_join.
    2:{ apply Forall_take, Forall_drop, split_no_sep. }
    rewrite length_take, length_drop.
    pose proof (ParserProps.body_span_le e (drop (i + 1) lines)) as Hle.
    rewrite length_drop in Hle.
    case_decide as Hd.
    + destruct Hd as [Hd _]. lia.
    + assert (body_span e (drop (i + 1) lines) <> 0).
      { intros H0. apply Hd. split; [lia|discriminate]. }
      lia.
  - intros [= <- <-]. unfold extra. cbn [body].
    rewrite decide_False by (intros [_ H]; now apply H). lia.
Qed.

(** ** The document only grows *)

Lemma grows_ret {A} (a : A) : grows (mret a).
Proof. intros s. exists []. cbn. now rewrite app_nil_r. Qed.

Lemma grows_raise {A} : grows (@raise A).
Proof. intros s. exists []. cbn. now rewrite app_nil_r. Qed.

Lemma grows_gets {A} (f : State -> A) : grows (gets f).
Proof. intros s. exists []. cbn. now rewrite app_nil_r. Qed.

Lemma grows_place (b : Block) : grows (place b).
Proof. intros s. exists [b]. reflexivity. Qed.

Lemma grows_modify (f : State -> State) :
  (forall s, doc (f s) = doc s) -> grows (modify f).
Proof. intros Hf s. exists []. cbn. now rewrite Hf, app_nil_r. Qed.

Lemma grows_bind {A B} (m : M A) (f : A -> M B) :
  grows m -> (forall a, grows (f a)) -> grows (m ≫= f).
Proof.
  intros Hm Hf s. unfold mbind, M_bind.
  destruct (Hm s) as [b1 H1]. destruct (m s) as [a s1|s1]; cbn in H1.
  - destruct (Hf a s1) as [b2 H2]. exists (b1 ++ b2).
    now rewrite H2, H1, app_assoc.
  - exists b1. exact H1.
Qed.

(** Goes through the monadic code of the engine, one bind at a time. *)
Ltac grow :=
  repeat first
    [ apply grows_ret | apply grows_raise | apply grows_gets
    | apply grows_place | apply grows_modify; intros; reflexivity
    | apply grows_bind; [|intros]
    | match goal with
      | |- grows (if ?b then _ else _) => destruct b
      | |- grows (match ?x with _ => _ end) => destruct x
      | |- grows (let '(_, _) := ?x in _) => destruct x
      end ].

Lemma grows_insert_paragraph env text style :
  grows (insert_paragraph env text style).
Proof. unfold insert_paragraph. grow. Qed.

Lemma grows_insert_lines env blines : grows (insert_lines env blines).
Proof.
  induction blines as [|b blines IH]; cbn [insert_lines]; [grow|].
  apply grows_bind; [apply grows_insert_paragraph|intros; exact IH].
Qed.

Lemma grows_flush_paragraph cfg buf : grows (flush_paragraph cfg buf).
Proof. unfold flush_paragraph. grow. Qed.

Lemma grows_render_directive env cfg d : grows (render_directive env cfg d).
Proof.
  unfold render_directive, _insert_figure, _insert_equation,
    _insert_table_caption, _insert_algorithm_caption, _render_table_body,
    label_store.
  destruct (type d); grow;
    try apply grows_insert_lines; try apply grows_insert_paragraph.
Qed.

(** A turn of the loop only adds to the document: what is placed stays
    where it is, in the order in which it was placed. *)
Lemma grows_turn env cfg lines dm i buf :
  grows (turn env cfg lines dm i buf).
Proof.
  unfold turn. grow;
    try apply grows_flush_paragraph; try apply grows_render_directive;
    try apply grows_insert_paragraph.
Qed.

Lemma grows_turns env cfg lines dm n :
  forall i buf, grows (turns env cfg lines dm n i buf).
Proof.
  induction n as [|n IH]; intros i buf; cbn [turns]; [grow|].
  destruct (decide (i < length lines)); [|grow].
  apply grows_bind; [apply grows_turn|intros; apply IH].
Qed.

(** The whole rendering only adds to the document. *)
Lemma grows_render_markdown env cfg content :
  grows (_render_markdown env cfg content).
Proof.
  intros s. unfold _render_markdown.
  rewrite (NumberingProps.render_loop_turns _ _ _ _ _ _ _ _ (Nat.le_sub_l _ _)).
  revert s. apply grows_bind; [apply grows_turns|].
  intros r. apply grows_flush_paragraph.
Qed.

End ScanProps.

(* ===================================================================== *)
(** * Prose lines and their paragraphs *)
(* ===================================================================== *)

Module ProseProps.
Import Parser Docx DocxHelpers DocxEngine Props.

Lemma truthy_lstrip p s :
  Py.truthy (Py.lstrip_by p s) = negb (all_chars p s).
Proof.
  induction s as [|c s IH]; [reflexivity|].
  cbn. destruct (p c); [exact IH|reflexivity].
Qed.

Lemma all_chars_lstrip p s :
  all_chars p (Py.lstrip_by p s) = all_chars p s.
Proof.
  induction s as [|c s IH]; [reflexivity|].
  cbn. destruct (p c) eqn:E; [exact IH|]. cbn. now rewrite E.
Qed.

Lemma truthy_rstrip p s :
  Py.truthy (Py.rstrip_by p s) = negb (all_chars p s).
Proof.
  induction s as [|c s IH]; [reflexivity|].
  cbn [Py.rstrip_by all_chars].
  destruct (Py.rstrip_by p s); cbn [Py.truthy] in IH |- *.
  - destruct (all_chars p s); [|discriminate].
    destruct (p c); reflexivity.
  - destruct (all_chars p s); [discriminate|].
    now rewrite andb_false_r.
Qed.

(** A text is blank, for [strip], when all of it is white space. *)
Lemma truthy_strip s :
  Py.truthy (Py.strip s) = negb (all_chars Py.isspace s).
Proof.
  unfold Py.strip, Py.strip_by. now rewrite truthy_rstrip, all_chars_lstrip.
Qed.

Lemma all_chars_app p a b :
  all_chars p (a +:+ b) = all_chars p a && all_chars p b.
Proof.
  induction a as [|c a IH]; [reflexivity|].
  change (String c a +:+ b) with (String c (a +:+ b)).
  cbn [all_chars]. now rewrite IH, andb_assoc.
Qed.

Lemma all_chars_join p sep buf l :
  l ∈ buf -> all_chars p (Py.join sep buf) = true -> all_chars p l = true.
Proof.
  induction buf as [|x buf IH]; intros Hin; [now apply elem_of_nil in Hin|].
  destruct buf as [|y buf].
  - apply list_elem_of_singleton in Hin as ->. cbn. auto.
  - change (Py.join sep (x :: y :: buf))
      with (x +:+ sep +:+ Py.join sep (y :: buf)).
    rewrite !all_chars_app, !andb_true_iff. intros (Hx & _ & Hrest).
    apply elem_of_cons in Hin as [->|Hin]; [exact Hx|]. now apply IH.
Qed.

(** A buffer with a line that is not blank is flushed to its
    paragraph. *)
Lemma flush_buffer cfg buf l s :
  l ∈ buf -> Py.truthy (Py.strip l) = true ->
  flush_paragraph cfg buf s
  = Ok tt (set_doc (doc s ++ [paragraph_of cfg buf]) s).
Proof.
  intros Hin Hl. unfold flush_paragraph.
  destruct buf as [|x buf]; [now apply elem_of_nil in Hin|].
  assert (Ht : Py.truthy (Py.strip (Py.join (String "010" "") (x :: buf)))
               = true).
  { rewrite truthy_strip in Hl |- *. apply negb_true_iff.
    apply negb_true_iff in Hl.
    destruct (all_chars Py.isspace (Py.join (String "010" "") (x :: buf)))
      eqn:E; [|reflexivity].
    rewrite (all_chars_join _ _ _ _ Hin E) in Hl. discriminate. }
  rewrite Ht. reflexivity.
Qed.

Lemma grows_render_loop env cfg lines dm i buf :
  grows (render_loop env cfg lines dm i buf).
Proof.
  intros s.
  rewrite (NumberingProps.render_loop_turns env cfg lines dm
             (length lines - i) i buf s (le_n _)).
  revert s. apply ScanProps.grows_bind; [apply ScanProps.grows_turns|].
  intros r. apply ScanProps.grows_flush_paragraph.
Qed.

(** Once a block is placed it is in the document at the end of the
    loop. *)
Lemma placed_stays env cfg lines dm i buf s s' b :
  render_loop env cfg lines dm i buf s = Ok tt s' ->
  b ∈ doc s -> b ∈ doc s'.
Proof.
  intros Hr Hb. destruct (grows_render_loop env cfg lines dm i buf s)
    as [blocks Hg].
  rewrite Hr in Hg. cbn in Hg. rewrite Hg. apply elem_of_app. auto.
Qed.

(** What is flushed is in the document after whatever follows. *)
Lemma after_flush {A} (rest : M A) cfg buf l s r s1 :
  grows rest ->
  l ∈ buf -> Py.truthy (Py.strip l) = true ->
  (flush_paragraph cfg buf ≫= fun _ => rest) s = Ok r s1 ->
  paragraph_of cfg buf ∈ doc s1.
Proof.
  intros Hg Hin Hl. unfold mbind, M_bind.
  rewrite (flush_buffer cfg buf l s Hin Hl).
  set (s0 := set_doc _ s). destruct (Hg s0) as [blocks Hb].
  intros Hr. rewrite Hr in Hb. cbn in Hb. rewrite Hb.
  rewrite <- app_assoc. apply elem_of_app. right. apply list_elem_of_here.
Qed.

(** After a turn a line of the buffer is still in the buffer, or the
    paragraph of the buffer is in the document. *)
Lemma turn_buffer env cfg lines dm i buf l s r s1 :
  l ∈ buf -> Py.truthy (Py.strip l) = true ->
  turn env cfg lines dm i buf s = Ok r s1 ->
  l ∈ r.2 \/ paragraph_of cfg buf ∈ doc s1.
Proof.
  intros Hin Hl. unfold turn.
  destruct (dm !! (i + 1)) as [d|].
  { intros H. right. eapply after_flush; [|exact Hin|exact Hl|exact H].
    apply ScanProps.grows_bind; [apply ScanProps.grows_render_directive|].
    intros; destruct (body d); apply ScanProps.grows_ret. }
  destruct (is_match end_tag_re _).
  { intros [= <- <-]. now left. }
  destruct (Re.match_ heading_re _).
  { intros H. right. eapply after_flush; [|exact Hin|exact Hl|exact H].
    ScanProps.grow; apply ScanProps.grows_insert_paragraph. }
  destruct (negb _).
  { intros H. right. eapply after_flush; [|exact Hin|exact Hl|exact H].
    apply ScanProps.grows_ret. }
  destruct (is_match rule_re _).
  { intros H. right. eapply after_flush; [|exact Hin|exact Hl|exact H].
    apply ScanProps.grows_ret. }
  intros [= <- <-]. left. cbn. apply elem_of_app. now left.
Qed.

(** A line that waits in the paragraph buffer is in a paragraph of the
    document when the loop has ended. *)
Lemma pending_flushed env cfg lines dm l :
  Py.truthy (Py.strip l) = true ->
  forall i buf s s',
    l ∈ buf ->
    render_loop env cfg lines dm i buf s = Ok tt s' ->
    exists buf', l ∈ buf' /\ paragraph_of cfg buf' ∈ doc s'.
Proof.
  intros Hl i.
  remember (length lines - i) as n eqn:Hn.
  revert i Hn. induction n as [n IH] using lt_wf_ind.
  intros i -> buf s s' Hin.
  rewrite LoopProps.render_loop_unfold.
  destruct (decide (i < length lines)) as [Hi|Hi].
  2:{ rewrite (flush_buffer cfg buf l s Hin Hl). intros [= <-].
      exists buf. split; [exact Hin|]. cbn.
      apply elem_of_app. right. apply list_elem_of_here. }
  destruct (turn env cfg lines dm i buf s) as [[skip buffer] s1|s1] eqn:Ht;
    [|discriminate].
  intros Hr.
  destruct (turn_buffer _ _ _ _ _ _ _ _ _ _ Hin Hl Ht) as [Hin'|Hp].
  - eapply (IH (length lines - (i + skip + 1))); [lia|reflexivity| |exact Hr].
    exact Hin'.
  - exists buf. split; [exact Hin|]. eapply placed_stays; eassumption.
Qed.

(** The loop from the start is the loop from where some turns have
    taken it. *)
Lemma render_loop_resume env cfg lines dm n :
  forall i buf s r s1,
    turns env cfg lines dm n i buf s = Ok r s1 ->
    render_loop env cfg lines dm i buf s
    = render_loop env cfg lines dm r.1 r.2 s1.
Proof.
  induction n as [|n IH]; intros i buf s r s1; cbn [turns].
  - intros [= <- <-]. reflexivity.
  - destruct (decide (i < length lines)) as [Hi|Hi].
    + unfold mbind, M_bind.
      destruct (turn env cfg lines dm i buf s) as [[skip buffer] s2|s2] eqn:Ht;
        [|discriminate].
      intros Hrest. apply IH in Hrest.
      rewrite (LoopProps.render_loop_unfold env cfg lines dm i buf s).
      rewrite decide_True by assumption. rewrite Ht. exact Hrest.
    + intros [= <- <-]. reflexivity.
Qed.

(** Order and completeness for prose, as far as the code has them: the
    document only grows, so that blocks stay in the order in which the
    forward scan placed them, and every prose line the loop arrives at
    is, when the rendering returns, in a paragraph of the document. *)
Lemma prose_rendered env cfg content s0 n r s s' :
  let lines := Py.split "010" content in
  let dm := build_dir_map (parse_directives content) in
  let l := nth r.1 lines "" in
  turns env cfg lines dm n 0 [] s0 = Ok r s ->
  r.1 < length lines ->
  dm !! (r.1 + 1) = None ->
  is_prose l = true ->
  _render_markdown env cfg content s0 = Ok tt s' ->
  exists buf, l ∈ buf /\ paragraph_of cfg buf ∈ doc s'.
Proof.
  intros lines dm l Ht Hi Hd Hp. unfold _render_markdown. fold lines dm.
  rewrite (render_loop_resume _ _ _ _ _ _ _ _ _ _ Ht).
  rewrite LoopProps.render_loop_unfold, decide_True by assumption.
  unfold is_prose in Hp. fold l in Hp.
  apply andb_true_iff in Hp as [Hp Hrule].
  apply andb_true_iff in Hp as [Hp Hblank].
  apply andb_true_iff in Hp as [Hend Hhead].
  apply negb_true_iff in Hend, Hhead, Hrule.
  assert (Hturn : turn env cfg lines dm r.1 r.2 s = Ok (0, r.2 ++ [l]) s).
  { unfold turn. fold l. rewrite Hd, Hend.
    unfold is_match in Hhead.
    destruct (Re.match_ heading_re l); [discriminate|].
    rewrite Hblank, Hrule. reflexivity. }
  rewrite Hturn. intros Hr.
  eapply pending_flushed; [exact Hblank| |exact Hr].
  apply elem_of_app. right. apply list_elem_of_here.
Qed.

End ProseProps.

(* ===================================================================== *)
(** * Two inputs on which the renderer departs from the specification *)
(* ===================================================================== *)

Module Departures.
Import Parser Docx DocxHelpers DocxEngine Props.

(** The arguments of a directive are the fields of the argument text of
    its tag, split at the bars and stripped; no argument text, no
    arguments. *)
Lemma parse_line_args lines i d next :
  parse_line lines i = Emit d next ->
  args d = split_args (tag_raw_args (nth i lines ""))
  /\ (tag_raw_args (nth i lines "") = "" -> args d = [])
  /\ (tag_raw_args (nth i lines "") <> "" ->
      args d = Py.strip <$> Py.split "|" (tag_raw_args (nth i lines ""))).
Proof.
  unfold parse_line.
  destruct (tag_name _) as [name|]; [|discriminate].
  destruct (of_value name) as [t|]; [|discriminate].
  assert (Hargs : forall raw,
             (raw = "" -> split_args raw = [])
             /\ (raw <> "" ->
                 split_args raw = Py.strip <$> Py.split "|" raw)).
  { intros raw. unfold split_args. destruct raw; cbn [Py.truthy].
    - split; [reflexivity|congruence].
    - split; [discriminate|reflexivity]. }
  destruct (_BLOCK_END_MAP name).
  - rewrite ParserProps.scan_body_spec. intros [= <- <-]. cbn [args].
    split; [reflexivity|apply Hargs].
  - intros [= <- <-]. cbn [args]. split; [reflexivity|apply Hargs].
Qed.

(** Rendering the figure tag that has a label only raises exactly when
    the project root exists and is not a picture: the empty path is the
    project root itself. *)
Lemma figure_raise_iff env cfg s :
  (exists s', _render_markdown env cfg "<!-- figure: lbl -->" s = Raised s')
  <-> (path_exists env (project_root cfg) = true
       /\ picture_ok env (project_root cfg) = false).
Proof.
  unfold _render_markdown.
  replace (parse_directives "<!-- figure: lbl -->")
    with [mkDirective FIGURE ["lbl"] None 1] by (vm_compute; reflexivity).
  replace (Py.split "010" "<!-- figure: lbl -->")
    with ["<!-- figure: lbl -->"] by (vm_compute; reflexivity).
  rewrite LoopProps.render_loop_unfold. cbn [length].
  rewrite decide_True by lia.
  unfold turn. cbn [build_dir_map foldl line]. rewrite lookup_insert_eq.
  unfold render_directive. cbn [type body].
  NumberingProps.run. cbn.
  destruct (path_exists env (project_root cfg));
    destruct (picture_ok env (project_root cfg)); cbn;
    rewrite ?LoopProps.render_loop_unfold; cbn;
    (split; [intros [s' H]; discriminate H || (split; reflexivity)
            | intros [H1 H2]; try discriminate; eauto]).
Qed.

(** C6, the rendering half, on the code: the tag [<!-- figure: lbl -->]
    parses to a figure with the one argument [lbl], its path, caption
    and width are absent, and its empty path resolves to the project
    root; in a project whose root directory exists, as it does in every
    build, the picture is taken from that directory, the rendering
    raises and the build fails. *)
Theorem bare_figure_raises :
  let text := "<!-- figure: lbl -->" in
  let d := mkDirective FIGURE ["lbl"] None 1 in
  parse_directives text = [d]
  /\ label d = Some "lbl"
  /\ path d = None /\ caption d = None /\ width d = None
  /\ resolve "/proj" (Py.or_empty (path d)) = "/proj"
  /\ _render_markdown (bare_project "/proj") immediate text (reset init)
     = Raised (set_fig 1 init)
  /\ build (bare_project "/proj") immediate text init
     = (false, set_fig 1 init)
  /\ forall env cfg s,
       (exists s', _render_markdown env cfg text s = Raised s')
       <-> (path_exists env (project_root cfg) = true
            /\ picture_ok env (project_root cfg) = false).
Proof.
  intros text d.
  repeat (split; [vm_compute; reflexivity|]).
  intros env cfg s. apply figure_raise_iff.
Qed.

(** C3 on the code: behind a block directive with an empty body the
    loop skips one line too many.  The line [hello] behind a table of
    one body line is rendered; the same line behind a table with no
    body line is not, although it stands outside the block: the loop
    goes from index 0 straight to index 3, and the document holds the
    caption alone. *)
Theorem empty_block_drops_next_line :
  let filled :=
    "<!-- table: t | c -->" +:+ nl +:+ "x" +:+ nl +:+
    "<!-- /table -->" +:+ nl +:+ "hello" in
  let empty :=
    "<!-- table: t | c -->" +:+ nl +:+
    "<!-- /table -->" +:+ nl +:+ "hello" in
  let env := bare_project "/proj" in
  let caption :=
    Para (mkParagraph (Some "Caption") true None
                      [Run Plain (hyou +:+ "1 c")]) in
  let hello := Para (mkParagraph None false None [Run Plain "hello"]) in
  parse_directives empty = [mkDirective TABLE ["t"; "c"] (Some "") 1]
  /\ Py.split "010" empty
     = ["<!-- table: t | c -->"; "<!-- /table -->"; "hello"]
  /\ (exists s, turns env immediate (Py.split "010" empty)
                  (build_dir_map (parse_directives empty)) 1 0 [] init
                = Ok (3, []) s)
  /\ (exists s, _render_markdown env immediate filled init = Ok tt s
                /\ doc s = [caption; hello])
  /\ (exists s, _render_markdown env immediate empty init = Ok tt s
                /\ doc s = [caption])
  /\ forall cfg,
       hello ∉ doc (final_state (_render_markdown env cfg empty init)).
Proof.
  intros filled empty env caption hello.
  split; [vm_compute; reflexivity|].
  split; [vm_compute; reflexivity|].
  split; [eexists; vm_compute; reflexivity|].
  split; [eexists; split; vm_compute; reflexivity|].
  split; [eexists; split; vm_compute; reflexivity|].
  intros cfg.
  assert (Hdoc : exists p,
             doc (final_state (_render_markdown env cfg empty init))
             = [Para p] /\ centered p = true).
  { unfold _render_markdown.
    replace (parse_directives empty)
      with [mkDirective TABLE ["t"; "c"] (Some "") 1]
      by (vm_compute; reflexivity).
    replace (Py.split "010" empty)
      with ["<!-- table: t | c -->"; "<!-- /table -->"; "hello"]
      by (vm_compute; reflexivity).
    rewrite LoopProps.render_loop_unfold. cbn [length].
    rewrite decide_True by lia.
    unfold turn. cbn [build_dir_map foldl line]. rewrite lookup_insert_eq.
    unfold render_directive. cbn [type body].
    NumberingProps.run. cbn.
    rewrite LoopProps.render_loop_unfold. cbn.
    eexists. split; reflexivity. }
  destruct Hdoc as (p & -> & Hc).
  rewrite list_elem_of_singleton. intros [= <-]. discriminate Hc.
Qed.

End Departures.

(* ===================================================================== *)
(** * Worked examples *)
(* ===================================================================== *)

Module Examples.
Import Parser Docx DocxHelpers DocxEngine Props.

Example parse_full_figure :
  parse_directives "<!-- figure: fig1 | img/a.png | A caption | 50% -->"
  = [mkDirective FIGURE ["fig1"; "img/a.png"; "A caption"; "50%"] None 1].
Proof. vm_compute. reflexivity. Qed.

(** An unknown tag name is no directive; a tag name is matched without
    regard to case. *)
Example parse_unknown_and_upper :
  parse_directives ("<!-- note: x -->" +:+ nl +:+ "<!-- PageBreak -->")
  = [mkDirective PAGEBREAK [] None 2].
Proof. vm_compute. reflexivity. Qed.

(** A tag inside the body of a block is part of the body. *)
Example parse_nested_tag :
  parse_directives
    ("<!-- algorithm: a | Sort -->" +:+ nl +:+ "<!-- pagebreak -->" +:+ nl +:+
     "<!-- /algorithm -->" +:+ nl +:+ "<!-- ref: alg:a -->")
  = [mkDirective ALGORITHM ["a"; "Sort"] (Some "<!-- pagebreak -->") 1;
     mkDirective REF ["alg:a"] None 4].
Proof. vm_compute. reflexivity. Qed.

Example strip_front_matter_example :
  _strip_front_matter
    ("---" +:+ nl +:+ "title: T" +:+ nl +:+ "---" +:+ nl +:+ nl +:+ "# One")
  = "# One".
Proof. vm_compute. reflexivity. Qed.

Example inline_markup_example :
  _add_inline_markup "a **b** and `c`"
  = [Run Plain "a "; Run Bold "b"; Run Plain " and "; Run Code "c";
     Run Plain ""].
Proof. vm_compute. reflexivity. Qed.

(** Deferred mode: the caption holds a SEQ field inside a bookmark, and a
    reference is a REF field to the bookmark, before or behind it. *)
Example render_deferred :
  doc (final_state
         (_render_markdown (bare_project "/proj") deferred
            ("<!-- ref: tbl:t -->" +:+ nl +:+
             "<!-- table: t | Sizes -->" +:+ nl +:+ "<!-- /table -->")
            init))
  = [Para (mkParagraph None false None
             [FldChar "begin"; InstrText " REF _Ref_tbl:t \h ";
              FldChar "separate"; Run Plain "??"; FldChar "end"]);
     Para (mkParagraph (Some "Caption") true None
             [Run Plain hyou; BookmarkStart "_Ref_tbl:t"; FldChar "begin";
              InstrText " SEQ Table "; FldChar "separate"; Run Plain "#";
              FldChar "end"; BookmarkEnd "_Ref_tbl:t";
              Run Plain " Sizes"])].
Proof. vm_compute. reflexivity. Qed.

(** Headings, prose over two lines, a rule and a resolved reference. *)
Example render_prose :
  doc (final_state
         (_render_markdown (bare_project "/proj") immediate
            ("## Results" +:+ nl +:+ "first" +:+ nl +:+ "second" +:+ nl +:+
             "---" +:+ nl +:+ "<!-- equation: e | E=mc^2 -->" +:+ nl +:+
             "<!-- ref: eq:e -->")
            init))
  = [Para (mkParagraph (Some "Heading 2") false None [Run Plain "Results"]);
     Para (mkParagraph None false None
             [Run Plain ("first" +:+ nl +:+ "second")]);
     Para (mkParagraph None false None
             [Run Italic "E=mc^2"; Run Plain (String "009" "");
              Run Plain "(1)"]);
     Para (mkParagraph None false None [Run Plain "(1)"])].
Proof. vm_compute. reflexivity. Qed.

(** A failure stays in the cache across builds: the second build has a
    converter that works and still shows the expression as text, while
    a new expression is converted. *)
Example cached_failure_across_builds :
  let s1 := (build (bare_project "/proj") immediate
                   "<!-- equation: e | x^2 -->" init).2 in
  doc (build (converting_project "/proj") immediate
             ("<!-- equation: e | x^2 -->" +:+ nl +:+
              "<!-- equation: f | y^2 -->") s1).2
  = [Para (mkParagraph None false None
             [Run Italic "x^2"; Run Plain (String "009" "");
              Run Plain "(1)"]);
     Para (mkParagraph None false None
             [Math "y^2"; Run Plain (String "009" ""); Run Plain "(2)"])].
Proof. vm_compute. reflexivity. Qed.

End Examples.

(* ===================================================================== *)
(** * Further properties of the string primitives *)
(* ===================================================================== *)

Module StringMore.
Import Parser Props Notions.

(** ** Stripping *)

Lemma lstrip_fixed p s :
  match s with EmptyString => True | String c _ => p c = false end ->
  Py.lstrip_by p s = s.
Proof. destruct s as [|c s]; [reflexivity|]. cbn. now intros ->. Qed.

Lemma lstrip_head p s :
  match Py.lstrip_by p s with
  | EmptyString => True
  | String c _ => p c = false
  end.
Proof.
  induction s as [|c s IH]; [exact I|]. cbn.
  destruct (p c) eqn:E; [exact IH|exact E].
Qed.

Lemma rstrip_head p c s :
  Py.rstrip_by p (String c s) = ""
  \/ exists r, Py.rstrip_by p (String c s) = String c r.
Proof.
  cbn. destruct (Py.rstrip_by p s); [destruct (p c)|]; eauto.
Qed.

Lemma rstrip_idem p s :
  Py.rstrip_by p (Py.rstrip_by p s) = Py.rstrip_by p s.
Proof.
  induction s as [|c s IH]; [reflexivity|].
  cbn [Py.rstrip_by]. destruct (Py.rstrip_by p s) as [|c' r] eqn:E.
  - destruct (p c) eqn:Hc; [reflexivity|]. cbn. now rewrite Hc.
  - cbn [Py.rstrip_by]. cbn [Py.rstrip_by] in IH. now rewrite IH.
Qed.

(** Stripping twice is stripping once. *)
Lemma strip_by_idem p s :
  Py.strip_by p (Py.strip_by p s) = Py.strip_by p s.
Proof.
  unfold Py.strip_by.
  assert (Hfix : Py.lstrip_by p (Py.rstrip_by p (Py.lstrip_by p s))
                 = Py.rstrip_by p (Py.lstrip_by p s)).
  { apply lstrip_fixed. pose proof (lstrip_head p s) as Hh.
    destruct (Py.lstrip_by p s) as [|c t]; [exact I|].
    destruct (rstrip_head p c t) as [->|[r ->]]; [exact I|exact Hh]. }
  rewrite Hfix. apply rstrip_idem.
Qed.

Lemma count_lstrip c p s : Py.count c (Py.lstrip_by p s) <= Py.count c s.
Proof.
  induction s as [|a s IH]; [reflexivity|]. cbn [Py.lstrip_by].
  destruct (p a); [cbn; lia|reflexivity].
Qed.

Lemma count_rstrip c p s : Py.count c (Py.rstrip_by p s) <= Py.count c s.
Proof.
  induction s as [|a s IH]; [reflexivity|]. cbn [Py.rstrip_by].
  destruct (Py.rstrip_by p s) as [|b r].
  - destruct (p a); cbn in *; lia.
  - cbn [Py.count] in *. lia.
Qed.

Lemma count_strip c s : Py.count c (Py.strip s) <= Py.count c s.
Proof.
  unfold Py.strip, Py.strip_by.
  pose proof (count_rstrip c Py.isspace (Py.lstrip_by Py.isspace s)).
  pose proof (count_lstrip c Py.isspace s). lia.
Qed.

(** ** Occurrences *)

Lemma prefix_app p a b :
  String.prefix p a = true -> String.prefix p (a +:+ b) = true.
Proof.
  revert a. induction p as [|c p IH]; intros a.
  - intros _. destruct (a +:+ b); reflexivity.
  - destruct a as [|d a]; [discriminate|].
    change (String d a +:+ b) with (String d (a +:+ b)). cbn.
    destruct (ascii_dec c d); [apply IH|discriminate].
Qed.

Lemma occurs_app_l p a b : occurs p (a +:+ b) = false -> occurs p a = false.
Proof.
  induction a as [|c a IH].
  - change ("" +:+ b) with b. intros H.
    destruct p as [|c p]; [|reflexivity].
    destruct b; cbn in H; discriminate H.
  - change (String c a +:+ b) with (String c (a +:+ b)). cbn [occurs].
    intros H. apply orb_false_iff in H as [H1 H2].
    apply orb_false_iff. split; [|now apply IH].
    destruct (String.prefix p (String c a)) eqn:E; [|reflexivity].
    apply (prefix_app p _ b) in E.
    change (String c a +:+ b) with (String c (a +:+ b)) in E. congruence.
Qed.

Lemma occurs_app_r p a b : occurs p (a +:+ b) = false -> occurs p b = false.
Proof.
  induction a as [|c a IH]; [exact (fun H => H)|].
  change (String c a +:+ b) with (String c (a +:+ b)). cbn [occurs].
  intros H. apply orb_false_iff in H as [_ H]. now apply IH.
Qed.

(** What does not occur in a text occurs in none of its lines. *)
Lemma occurs_lines p sep s :
  occurs p s = false ->
  Forall (fun l => occurs p l = false) (Py.split sep s).
Proof.
  intros H. rewrite <- (ParserProps.join_split sep s) in H.
  induction (Py.split sep s) as [|x ls IH]; [constructor|].
  destruct ls as [|y ls]; [repeat constructor; exact H|].
  change (Py.join (String sep "") (x :: y :: ls))
    with (x +:+ String sep "" +:+ Py.join (String sep "") (y :: ls)) in H.
  constructor; [now apply occurs_app_l in H|].
  apply IH. apply occurs_app_r in H. now apply occurs_app_r in H.
Qed.

End StringMore.

(* ===================================================================== *)
(** * Further properties of the directive parser *)
(* ===================================================================== *)

Module ParserMore.
Import Parser Props Notions.

Lemma in_order_cons d ds :
  Forall (fun d' => line d < line d') ds -> in_order ds ->
  in_order (d :: ds).
Proof.
  intros Hd Hds i j d1 d2 Hij H1 H2.
  destruct j as [|j]; [lia|]. cbn in H2.
  destruct i as [|i]; cbn in H1.
  - injection H1 as <-. rewrite Forall_forall in Hd. apply Hd.
    eapply list_elem_of_lookup_2. exact H2.
  - eapply Hds; [|exact H1|exact H2]. lia.
Qed.

(** From a line index on, the loop gives directives of later lines, in
    the order of their lines. *)
Lemma parse_loop_in_order lines :
  forall i,
    in_order (parse_loop lines i [])
    /\ Forall (fun d => i < line d <= length lines) (parse_loop lines i []).
Proof.
  intros i. remember (length lines - i) as n eqn:Hn.
  revert i Hn. induction n as [n IH] using lt_wf_ind. intros i ->.
  rewrite (ParserProps.parse_loop_unfold lines i []).
  destruct (decide (i < length lines)) as [Hi|Hi].
  2:{ split; [|constructor]. intros ? ? ? ? _ H. discriminate H. }
  destruct (parse_line lines i) as [|d next] eqn:E.
  - destruct (IH (length lines - (i + 1)) ltac:(lia) (i + 1) eq_refl)
      as [Ho Hl].
    split; [exact Ho|]. eapply Forall_impl; [exact Hl|]. cbn. intros; lia.
  - apply ParserProps.parse_line_emit in E as [Hline Hnext].
    rewrite ParserProps.parse_loop_acc. cbn [app].
    destruct (IH (length lines - next) ltac:(lia) next eq_refl) as [Ho Hl].
    split.
    + apply in_order_cons; [|exact Ho].
      eapply Forall_impl; [exact Hl|]. cbn. intros; lia.
    + constructor; [lia|].
      eapply Forall_impl; [exact Hl|]. cbn. intros; lia.
Qed.

(** No two directives of a text have the same line. *)
Lemma parse_lines_nodup (text : string) :
  NoDup (line <$> parse_directives text).
Proof.
  unfold parse_directives.
  destruct (parse_loop_in_order (Py.split "010" text) 0) as [Ho _].
  apply NoDup_alt. intros i j k Hi Hj.
  rewrite list_lookup_fmap in Hi, Hj.
  destruct (parse_loop _ 0 [] !! i) as [d1|] eqn:H1; [|discriminate].
  destruct (parse_loop _ 0 [] !! j) as [d2|] eqn:H2; [|discriminate].
  cbn in Hi, Hj. injection Hi as <-. injection Hj as Heq.
  destruct (Nat.lt_trichotomy i j) as [Hlt|[->|Hgt]]; [|reflexivity|].
  + pose proof (Ho i j d1 d2 Hlt H1 H2). lia.
  + pose proof (Ho j i d2 d1 Hgt H2 H1). lia.
Qed.

(** X1: [parse_directives] gives the directives in document order: the
    line numbers go strictly up along the list, so that no line has two
    directives, and each is the number of a line of the text, from 1. *)
Theorem directives_in_document_order (text : string) :
  in_order (parse_directives text)
  /\ Forall (fun d => 1 <= line d <= length (Py.split "010" text))
            (parse_directives text)
  /\ NoDup (line <$> parse_directives text).
Proof.
  unfold parse_directives.
  destruct (parse_loop_in_order (Py.split "010" text) 0) as [Ho Hl].
  split; [exact Ho|]. split.
  - eapply Forall_impl; [exact Hl|]. cbn. intros; lia.
  - apply parse_lines_nodup.
Qed.

Lemma foldl_insert_other (ds : list Directive) k :
  forall m : gmap nat Directive,
    k ∉ line <$> ds ->
    foldl (fun m d => <[line d := d]> m) m ds !! k = m !! k.
Proof.
  induction ds as [|d ds IH]; intros m Hk; [reflexivity|].
  cbn [foldl]. cbn in Hk. apply not_elem_of_cons in Hk as [Hne Hk].
  rewrite IH by assumption. now apply lookup_insert_ne.
Qed.

Lemma foldl_insert_lookup (ds : list Directive) d :
  forall m : gmap nat Directive,
    NoDup (line <$> ds) -> d ∈ ds ->
    foldl (fun m d => <[line d := d]> m) m ds !! line d = Some d.
Proof.
  induction ds as [|d' ds IH]; intros m Hnd Hin;
    [now apply elem_of_nil in Hin|].
  cbn in Hnd. apply NoDup_cons in Hnd as [Hd' Hnd]. cbn [foldl].
  apply elem_of_cons in Hin as [->|Hin].
  - rewrite foldl_insert_other by assumption. apply lookup_insert_eq.
  - now apply IH.
Qed.

(** X2: the line-to-directive map that [_render_markdown] builds holds
    every directive of the text under its own line and nothing else: no
    directive is lost to another one on the same line. *)
Theorem dir_map_exact (text : string) (k : nat) (d : Directive) :
  DocxEngine.build_dir_map (parse_directives text) !! k = Some d
  <-> d ∈ parse_directives text /\ line d = k.
Proof.
  split.
  - apply LoopProps.build_dir_map_lookup.
  - intros [Hin <-]. unfold DocxEngine.build_dir_map.
    apply foldl_insert_lookup; [apply parse_lines_nodup|exact Hin].
Qed.

(** X3: a directive of a text has a body exactly when it is a table, an
    algorithm or a raw block; a figure, equation, reference, page break,
    style or stray end tag never has one, and a block directive has one
    even when it is empty or unterminated. *)
Theorem body_iff_block (text : string) (d : Directive) :
  d ∈ parse_directives text ->
  (is_Some (body d) <-> is_block (type d) = true)
  /\ (body d = None <-> is_block (type d) = false).
Proof.
  intros Hin. apply CrossRefProps.parse_loop_body in Hin as [Hin|Hb];
    [now apply elem_of_nil in Hin|].
  assert (Hmap : _BLOCK_END_MAP (value (type d)) = None
                 <-> is_block (type d) = false).
  { destruct (type d); cbn; split; congruence. }
  rewrite Hmap in Hb. split; [|exact Hb].
  rewrite <- not_eq_None_Some, Hb. destruct (is_block (type d)); split;
    congruence.
Qed.

Lemma body_iff_block_witness :
  let d := mkDirective TABLE ["t1"; "cap"] (Some "a|b") 1 in
  is_Some (body d) <-> is_block (type d) = true.
Proof.
  intros d.
  apply (body_iff_block ("<!-- table: t1 | cap -->" +:+ nl +:+ "a|b") d).
  vm_compute. apply list_elem_of_here.
Defined.

(** ** Arguments *)

Lemma parse_loop_args lines i acc d :
  d ∈ parse_loop lines i acc ->
  d ∈ acc \/ exists raw, args d = split_args raw.
Proof.
  remember (length lines - i) as n eqn:Hn.
  revert i acc Hn. induction n as [n IH] using lt_wf_ind. intros i acc ->.
  rewrite (ParserProps.parse_loop_unfold lines i acc).
  destruct (decide (i < length lines)) as [Hi|Hi]; [|auto].
  destruct (parse_line lines i) as [|d' next] eqn:E.
  - eapply IH; [|reflexivity]. lia.
  - pose proof (Departures.parse_line_args _ _ _ _ E) as [Ha _].
    apply ParserProps.parse_line_emit in E as [_ Hnext]. intros Hd.
    apply (IH (length lines - next) ltac:(lia) next _ eq_refl) in Hd.
    destruct Hd as [Hd|Hd]; [|auto].
    apply elem_of_app in Hd as [Hd|Hd]; [auto|].
    apply list_elem_of_singleton in Hd as ->. eauto.
Qed.

Lemma split_args_clean raw :
  Forall (fun a => Py.strip a = a /\ Py.count "|" a = 0) (split_args raw).
Proof.
  unfold split_args. destruct (Py.truthy raw); [|constructor].
  apply Forall_fmap. eapply Forall_impl; [apply (ScanProps.split_no_sep "|")|].
  cbn. intros x Hx. split; [apply StringMore.strip_by_idem|].
  pose proof (StringMore.count_strip "|" x). lia.
Qed.

(** X4: every argument of a directive of a text is stripped of white
    space at both ends and holds no bar, so the accessors, which strip
    again, give the arguments as they are stored. *)
Theorem arguments_clean (text : string) (d : Directive) :
  d ∈ parse_directives text ->
  Forall (fun a => Py.strip a = a /\ Py.count "|" a = 0) (args d)
  /\ forall n, arg n d = args d !! n.
Proof.
  intros Hin. apply parse_loop_args in Hin as [Hin|[raw Hraw]];
    [now apply elem_of_nil in Hin|].
  pose proof (split_args_clean raw) as Hclean. rewrite <- Hraw in Hclean.
  split; [exact Hclean|].
  intros n. unfold arg. destruct (args d !! n) as [a|] eqn:Ha; [|reflexivity].
  cbn. f_equal. rewrite Forall_forall in Hclean.
  apply Hclean. eapply list_elem_of_lookup_2. exact Ha.
Qed.

Lemma arguments_clean_witness :
  let d := mkDirective FIGURE ["f1"; "a.png"; "A cap"] None 1 in
  forall n, arg n d = args d !! n.
Proof.
  intros d.
  apply (arguments_clean "<!-- figure:  f1 |a.png |  A cap   -->" d).
  vm_compute. apply list_elem_of_here.
Defined.

(** ** Texts without tags *)

(** Where no comment opens, no tag is found. *)
Lemma search_no_opener pre l :
  occurs "<!--" l = false ->
  Re.search_from _DIRECTIVE_RE pre l = None.
Proof.
  revert pre. induction l as [|c l IH]; intros pre H.
  - reflexivity.
  - cbn [occurs] in H. apply orb_false_iff in H as [Hp Hl].
    cbn [Re.search_from]. unfold _DIRECTIVE_RE at 1.
    cbn [Re.seq Re.exec]. rewrite Hp. now apply IH.
Qed.

Lemma parse_loop_no_tag lines :
  Forall (fun l => tag_name l = None) lines ->
  forall i acc, parse_loop lines i acc = acc.
Proof.
  intros Hl i. remember (length lines - i) as n eqn:Hn.
  revert i Hn. induction n as [n IH] using lt_wf_ind. intros i -> acc.
  rewrite ParserProps.parse_loop_unfold.
  destruct (decide (i < length lines)) as [Hi|Hi]; [|reflexivity].
  assert (Hs : parse_line lines i = Skip).
  { unfold parse_line. rewrite Forall_forall in Hl.
    rewrite (Hl (nth i lines "")); [reflexivity|].
    apply list_elem_of_In, nth_In. exact Hi. }
  rewrite Hs. eapply IH; [|reflexivity]. lia.
Qed.

(** X5: a text in which no comment opens, that is without [<!--], has
    no directive at all, and its line-to-directive map is empty. *)
Theorem no_comment_no_directive (text : string) :
  occurs "<!--" text = false ->
  parse_directives text = []
  /\ DocxEngine.build_dir_map (parse_directives text) = ∅.
Proof.
  intros H.
  assert (Hp : parse_directives text = []).
  { unfold parse_directives. apply parse_loop_no_tag.
    eapply Forall_impl; [apply (StringMore.occurs_lines _ "010" _ H)|].
    cbn. intros l Hl. unfold tag_name, Re.search.
    now rewrite search_no_opener. }
  rewrite Hp. split; reflexivity.
Qed.

Lemma no_comment_no_directive_witness :
  parse_directives ("# Title" +:+ nl +:+ "a < b -- c" +:+ nl +:+ "<!- x ->")
  = [].
Proof.
  apply (no_comment_no_directive
           ("# Title" +:+ nl +:+ "a < b -- c" +:+ nl +:+ "<!- x ->")).
  vm_compute. reflexivity.
Defined.

End ParserMore.

(* ===================================================================== *)
(** * Further properties of the rendering loop *)
(* ===================================================================== *)

Module RenderMore.
Import Parser Docx DocxHelpers DocxEngine Props Notions.

(** ** The document under the loop *)

(** X6: rendering only adds to the document, whether it returns or
    raises: the blocks that were there stay in front, and whatever the
    loop has placed after some turns is still there, in the same order,
    when the rendering ends. *)
Theorem document_only_grows env cfg (content : string) (s : State) :
  let lines := Py.split "010" content in
  let dm := build_dir_map (parse_directives content) in
  let final := final_state (_render_markdown env cfg content s) in
  (exists blocks, doc final = doc s ++ blocks)
  /\ forall n r s1,
       turns env cfg lines dm n 0 [] s = Ok r s1 ->
       exists earlier later,
         doc s1 = doc s ++ earlier /\ doc final = doc s1 ++ later.
Proof.
  intros lines dm final. split.
  - apply ScanProps.grows_render_markdown.
  - intros n r s1 Ht.
    destruct (ScanProps.grows_turns env cfg lines dm n 0 [] s)
      as [earlier He].
    rewrite Ht in He. cbn in He.
    destruct (ProseProps.grows_render_loop env cfg lines dm r.1 r.2 s1)
      as [later Hl].
    exists earlier, later. split; [exact He|].
    subst final. unfold _render_markdown. fold lines dm.
    rewrite (ProseProps.render_loop_resume _ _ _ _ _ _ _ _ _ _ Ht).
    exact Hl.
Qed.

(** ** Rendering that cannot raise *)

Lemma returns_ret {A} (a : A) : returns (mret a).
Proof. intros s. now exists a, s. Qed.

Lemma returns_gets {A} (f : State -> A) : returns (gets f).
Proof. intros s. now exists (f s), s. Qed.

Lemma returns_place (b : Block) : returns (place b).
Proof. intros s. eexists _, _. reflexivity. Qed.

Lemma returns_modify (f : State -> State) : returns (modify f).
Proof. intros s. eexists _, _. reflexivity. Qed.

Lemma returns_bind {A B} (m : M A) (f : A -> M B) :
  returns m -> (forall a, returns (f a)) -> returns (m ≫= f).
Proof.
  intros Hm Hf s. unfold mbind, M_bind.
  destruct (Hm s) as (a & s1 & ->). apply Hf.
Qed.

(** Goes through the monadic code, one bind and one test at a time. *)
Ltac go :=
  repeat first
    [ apply returns_ret | apply returns_gets | apply returns_place
    | apply returns_modify
    | apply returns_bind; [|intros]
    | match goal with
      | |- returns (if ?b then _ else _) => destruct b eqn:?
      | |- returns (match ?x with _ => _ end) => destruct x eqn:?
      | |- returns (let '(_, _) := ?x in _) => destruct x eqn:?
      end ].

Section Served.
Variable env : Env.
Variable cfg : Config.
Hypothesis styles : forall name, has_style env name = true.
Hypothesis fragments : forall x, fromstring env x <> OtherError.

Lemma returns_insert_paragraph text style :
  returns (insert_paragraph env text style).
Proof.
  unfold insert_paragraph. destruct style as [name|]; [|go].
  rewrite styles. go.
Qed.

Lemma returns_insert_lines blines : returns (insert_lines env blines).
Proof.
  induction blines as [|b blines IH]; cbn [insert_lines]; [go|].
  apply returns_bind; [apply returns_insert_paragraph|intros; exact IH].
Qed.

Lemma returns_flush_paragraph buf : returns (flush_paragraph cfg buf).
Proof. unfold flush_paragraph. go. Qed.

Lemma returns_render_directive d :
  picture_loadable env cfg d -> returns (render_directive env cfg d).
Proof.
  intros Hpic. unfold render_directive.
  destruct (type d) eqn:Ht.
  - (* figure *)
    unfold _insert_figure, label_store.
    specialize (Hpic Ht). cbn zeta in Hpic.
    apply returns_bind; [go|intros _].
    apply returns_bind; [|intros; go].
    destruct (path_exists env _); [|go].
    rewrite (Hpic eq_refl), andb_true_r. go.
  - unfold _insert_equation, label_store. go.
  - unfold _insert_table_caption, _render_table_body, label_store.
    rewrite styles. go.
  - go.
  - unfold _insert_algorithm_caption, label_store. go.
    apply returns_insert_lines.
  - go.
  - go; apply returns_insert_paragraph.
  - go.
  - go. now apply fragments in Heqp.
  - go.
  - apply returns_insert_paragraph.
Qed.

Lemma returns_turn lines dm i buf :
  (forall k d, dm !! k = Some d -> picture_loadable env cfg d) ->
  returns (turn env cfg lines dm i buf).
Proof.
  intros Hdm. unfold turn.
  destruct (dm !! (i + 1)) as [d|] eqn:Hd.
  - apply returns_bind; [apply returns_flush_paragraph|intros _].
    apply returns_bind;
      [apply returns_render_directive; eapply Hdm; exact Hd|intros _].
    go.
  - go; try apply returns_flush_paragraph;
      try apply returns_insert_paragraph.
Qed.

Lemma returns_turns lines dm n :
  (forall k d, dm !! k = Some d -> picture_loadable env cfg d) ->
  forall i buf, returns (turns env cfg lines dm n i buf).
Proof.
  intros Hdm. induction n as [|n IH]; intros i buf; cbn [turns]; [go|].
  destruct (decide (i < length lines)); [|go].
  apply returns_bind; [now apply returns_turn|intros; apply IH].
Qed.

End Served.

(** X7: rendering never raises in a document that has every style asked
    for, where raw fragments parse or fail with a syntax error, and
    where the picture of every figure of the text can be loaded if its
    path exists; it returns and the build succeeds. *)
Theorem render_never_raises env cfg (content : string) :
  (forall name, has_style env name = true) ->
  (forall x, fromstring env x <> OtherError) ->
  (forall d, d ∈ parse_directives content -> picture_loadable env cfg d) ->
  forall s, exists s', _render_markdown env cfg content s = Ok tt s'.
Proof.
  intros Hst Hfr Hpic s. unfold _render_markdown.
  rewrite (NumberingProps.render_loop_turns _ _ _ _ _ _ _ _ (Nat.le_sub_l _ _)).
  assert (Hret : returns
             (r ← turns env cfg (Py.split "010" content)
                    (build_dir_map (parse_directives content))
                    (length (Py.split "010" content)) 0 [] ;
              flush_paragraph cfg r.2)).
  { apply returns_bind.
    - apply returns_turns; try assumption.
      intros k d Hk. apply Hpic.
      now apply LoopProps.build_dir_map_lookup in Hk as [Hin _].
    - intros r. apply returns_flush_paragraph. }
  destruct (Hret s) as ([] & s' & ->). now exists s'.
Qed.

Lemma render_never_raises_witness :
  exists s',
    _render_markdown served_project immediate
      ("# Head" +:+ nl +:+ "<!-- figure: f | x.png | Cap -->" +:+ nl +:+
       "<!-- style: Quote | text -->")
      init
    = Ok tt s'.
Proof.
  apply (render_never_raises served_project immediate).
  - intros name. reflexivity.
  - intros x. discriminate.
  - intros d _ _ p _. reflexivity.
Defined.

End RenderMore.

(* ===================================================================== *)
(** * Further properties of cross-references *)
(* ===================================================================== *)

Module CrossRefMore.
Import Parser Docx DocxHelpers DocxEngine Props Notions.

Lemma reference_truthy cfg t k :
  numbered t -> Py.truthy (reference cfg t k) = true.
Proof. intros [-> | [-> | [-> | ->]]]; reflexivity. Qed.

(** X8: in immediate mode a reference behind the directive it names is
    resolved: when the pass has rendered a directive with that
    qualified label, the reference is a paragraph with the number of
    the last such directive, counted within its category. *)
Theorem backward_ref_resolved env cfg (content : string)
        (s0 : State) (n : nat) (r : nat * list string) (s : State)
        (d target : Directive) (before after : list Directive) :
  let lines := Py.split "010" content in
  let dm := build_dir_map (parse_directives content) in
  let label := Py.or_empty (Parser.label d) in
  seq_mode cfg = false ->
  turns env cfg lines dm n 0 [] (reset s0) = Ok r s ->
  dm !! (r.1 + 1) = Some d ->
  type d = REF ->
  dispatched lines dm n 0 = before ++ target :: after ->
  qualified target = Some label ->
  Forall (fun d' => qualified d' <> Some label) after ->
  exists s1,
    flush_paragraph cfg r.2 s = Ok tt s1
    /\ turn env cfg lines dm r.1 r.2 s
       = Ok (0, [])
            (set_doc
               (doc s1 ++
                [Para (mkParagraph None false None
                   [Run Plain
                      (reference cfg (type target)
                         (count_type (type target) before + 1))])])
               s1).
Proof.
  intros lines dm label Hm Ht Hd Htype Hdis Hq Hafter.
  destruct (NumberingProps.flush_paragraph_ok cfg r.2 s)
    as (s1 & Hf & Hn & _).
  exists s1. split; [exact Hf|].
  assert (Hsome : _labels s1 !! label
                  = Some (reference cfg (type target)
                            (count_type (type target) before + 1))).
  { change (_labels s1) with (refs (numbering s1)). rewrite Hn.
    rewrite (NumberingProps.turns_numbering _ _ _ _ _ _ _ _ _ _ Ht).
    fold lines dm. rewrite Hdis.
    rewrite (NumberingProps.replay_last_write cfg _ before target after
               label Hq Hafter).
    now rewrite NumberingProps.reset_counter. }
  unfold turn. fold dm. rewrite Hd.
  unfold mbind, M_bind. rewrite Hf.
  rewrite (CrossRefProps.render_ref_immediate env cfg d s1 Hm Htype).
  fold label. rewrite Hsome, (CrossRefProps.ref_no_body content _ d Hd Htype).
  cbn [default id]. unfold text_content.
  rewrite reference_truthy
    by (eapply NumberingProps.qualified_numbered; eassumption).
  reflexivity.
Qed.

Lemma backward_ref_resolved_witness :
  let content :=
    "<!-- figure: a | x.png | First -->" +:+ nl +:+
    "<!-- figure: b | y.png | Second -->" +:+ nl +:+
    "<!-- ref: fig:b -->" in
  let env := bare_project "/proj" in
  let lines := Py.split "010" content in
  let dm := build_dir_map (parse_directives content) in
  let s := final_state (turns env immediate lines dm 2 0 [] (reset init)) in
  exists s1,
    flush_paragraph immediate [] s = Ok tt s1
    /\ turn env immediate lines dm 2 [] s
       = Ok (0, [])
            (set_doc
               (doc s1 ++
                [Para (mkParagraph None false None
                         [Run Plain (zu +:+ "2")])])
               s1).
Proof.
  intros content env lines dm s.
  apply (backward_ref_resolved env immediate content init 2 (2, []) s
           (mkDirective REF ["fig:b"] None 3)
           (mkDirective FIGURE ["b"; "y.png"; "Second"] None 2)
           [mkDirective FIGURE ["a"; "x.png"; "First"] None 1] []).
  - reflexivity.
  - vm_compute. reflexivity.
  - vm_compute. reflexivity.
  - reflexivity.
  - vm_compute. reflexivity.
  - reflexivity.
  - constructor.
Defined.

(** ** Bookmarks in deferred mode *)

Lemma insert_lines_bookmarks env blines :
  forall s s',
    insert_lines env blines s = Ok tt s' ->
    exists blocks,
      doc s' = doc s ++ blocks /\ flat_map bookmarks_of blocks = [].
Proof.
  induction blines as [|b blines IH]; intros s s'; cbn [insert_lines].
  - intros [= <-]. exists []. now rewrite app_nil_r.
  - NumberingProps.run. destruct (has_style env "Normal"); [|discriminate].
    intros H. apply IH in H as (blocks & Hdoc & Hb). cbn in Hdoc.
    eexists (_ :: blocks). rewrite Hdoc, <- app_assoc. split; [reflexivity|].
    cbn [flat_map]. rewrite Hb. unfold text_content.
    now destruct (Py.truthy b).
Qed.

(** Computes the bookmarks of the blocks a caption is placed with. *)
Ltac marks cfg d :=
  cbn [flat_map];
  unfold bookmarks_of, picture_paragraph, make_seq_field, bookmark;
  cbn [content];
  destruct (seq_mode cfg), (Py.truthy_opt (chapter_prefix cfg)),
    (Py.truthy (Py.or_empty (Parser.label d)));
  reflexivity.

(** X9: the bookmarks a numbered directive sets.  In deferred mode the
    caption of a figure, a table or an equation with a label opens
    exactly one bookmark, named [_Ref_] and the qualified label, which
    is the name a reference to that qualified label points its REF
    field to.  An algorithm never sets a bookmark, and no directive
    sets one in immediate mode or without a label. *)
Theorem caption_bookmark env cfg (d : Directive) (key : string)
        (s s' : State) :
  qualified d = Some key ->
  render_directive env cfg d s = Ok tt s' ->
  (exists blocks,
     doc s' = doc s ++ blocks
     /\ flat_map bookmarks_of blocks
        = if seq_mode cfg && bookmarked (type d)
             && Py.truthy (Py.or_empty (Parser.label d))
          then ["_Ref_" +:+ key] else [])
  /\ forall r sr,
       type r = REF -> Py.or_empty (Parser.label r) = key ->
       seq_mode cfg = true ->
       render_directive env cfg r sr
       = Ok tt (set_doc
                  (doc sr ++
                   [Para (mkParagraph None false None
                      [FldChar "begin";
                       InstrText (" REF _Ref_" +:+ key +:+ " \h ");
                       FldChar "separate"; Run Plain "??"; FldChar "end"])])
                  sr).
Proof.
  intros Hq Hr. split.
  2: { intros r sr Ht Hl Hm. unfold render_directive.
       rewrite Ht, Hm, Hl. reflexivity. }
  revert Hq Hr. unfold render_directive, qualified, bookmarked.
  destruct (type d) eqn:Ht; try discriminate; intros [= <-].
  - (* figure *)
    NumberingProps.run.
    destruct (path_exists env _);
      [destruct (Py.truthy_opt (width d));
       [destruct (width_ok env _ && picture_ok env _);
        [|destruct (picture_ok env _); [|discriminate]]
       |destruct (picture_ok env _); [|discriminate]]|];
      intros [= <-]; cbn [doc set_doc set_labels set_fig];
      eexists; (split; [rewrite <- ?app_assoc; reflexivity|]);
      marks cfg d.
  - (* equation *)
    NumberingProps.run.
    destruct (latex_to_omml env _ _) as [omml cache'].
    intros [= <-]. cbn [doc set_doc set_labels set_eq set_cache].
    eexists. split; [reflexivity|].
    destruct omml; marks cfg d.
  - (* table *)
    NumberingProps.run.
    destruct (Py.truthy_opt (body d));
      [destruct (table_cells _) as [[header rows]|];
       [destruct (has_style env "Table Grid"); [|discriminate]|]|];
      intros [= <-]; cbn [doc set_doc set_labels set_tbl];
      eexists; (split; [rewrite <- ?app_assoc; reflexivity|]);
      marks cfg d.
  - (* algorithm *)
    NumberingProps.run. rewrite andb_false_r.
    destruct (Py.truthy_opt (body d)).
    + intros H. apply insert_lines_bookmarks in H as (blocks & Hdoc & Hb).
      cbn [doc set_doc set_labels set_alg] in Hdoc.
      eexists (_ :: blocks). rewrite Hdoc, <- app_assoc.
      split; [reflexivity|]. cbn [flat_map]. now rewrite Hb.
    + intros [= <-]. eexists. split; [reflexivity|]. reflexivity.
Qed.

Lemma caption_bookmark_witness :
  let d := mkDirective TABLE ["t"; "Sizes"] (Some "a|b") 1 in
  let s' := final_state (render_directive (bare_project "/proj") deferred
                           d init) in
  exists blocks,
    doc s' = doc init ++ blocks
    /\ flat_map bookmarks_of blocks = ["_Ref_tbl:t"].
Proof.
  intros d s'.
  apply (caption_bookmark (bare_project "/proj") deferred d "tbl:t" init s').
  - reflexivity.
  - reflexivity.
Defined.

End CrossRefMore.

(* ===================================================================== *)
(** * The conversion cache *)
(* ===================================================================== *)

Module CacheMore.
Import Parser Docx DocxHelpers DocxEngine Props Notions.

Lemma keeps_ret {A} (a : A) : keeps_cache (mret a).
Proof. intros s. reflexivity. Qed.

Lemma keeps_raise {A} : keeps_cache (@raise A).
Proof. intros s. reflexivity. Qed.

Lemma keeps_gets {A} (f : State -> A) : keeps_cache (gets f).
Proof. intros s. reflexivity. Qed.

Lemma keeps_place (b : Block) : keeps_cache (place b).
Proof. intros s. reflexivity. Qed.

Lemma keeps_modify (f : State -> State) :
  (forall s, _omml_cache s ⊆ _omml_cache (f s)) -> keeps_cache (modify f).
Proof. intros Hf s. apply Hf. Qed.

Lemma keeps_bind {A B} (m : M A) (f : A -> M B) :
  keeps_cache m -> (forall a, keeps_cache (f a)) -> keeps_cache (m ≫= f).
Proof.
  intros Hm Hf s. unfold mbind, M_bind.
  specialize (Hm s). destruct (m s) as [a s1|s1]; cbn in Hm.
  - etrans; [exact Hm|apply Hf].
  - exact Hm.
Qed.

(** A conversion adds at most the entry of its formula, and only when
    there was none. *)
Lemma latex_to_omml_extends env latex cache :
  cache ⊆ (latex_to_omml env latex cache).2.
Proof.
  unfold latex_to_omml. destruct (cache !! latex) eqn:Hc; [reflexivity|].
  destruct (pandoc env latex); cbn; now apply insert_subseteq.
Qed.

(** Goes through the monadic code, one bind and one test at a time. *)
Ltac keep :=
  repeat first
    [ apply keeps_ret | apply keeps_raise | apply keeps_gets
    | apply keeps_place | apply keeps_modify; intros; reflexivity
    | apply keeps_bind; [|intros]
    | match goal with
      | |- keeps_cache (if ?b then _ else _) => destruct b
      | |- keeps_cache (match ?x with _ => _ end) => destruct x
      end ].

Lemma keeps_insert_paragraph env text style :
  keeps_cache (insert_paragraph env text style).
Proof. unfold insert_paragraph. keep. Qed.

Lemma keeps_insert_lines env blines : keeps_cache (insert_lines env blines).
Proof.
  induction blines as [|b blines IH]; cbn [insert_lines]; [keep|].
  apply keeps_bind; [apply keeps_insert_paragraph|intros; exact IH].
Qed.

Lemma keeps_flush_paragraph cfg buf : keeps_cache (flush_paragraph cfg buf).
Proof. unfold flush_paragraph. keep. Qed.

Lemma keeps_insert_equation env cfg d :
  keeps_cache (_insert_equation env cfg d).
Proof.
  unfold _insert_equation, label_store.
  apply keeps_bind; [keep|intros _].
  apply keeps_bind; [keep|intros n].
  apply keeps_bind; [keep|intros _].
  intros s. unfold mbind, M_bind, gets.
  pose proof (latex_to_omml_extends env (Py.or_empty (latex d))
                (_omml_cache s)) as Hc.
  destruct (latex_to_omml env _ _) as [omml cache']. exact Hc.
Qed.

Lemma keeps_render_directive env cfg d :
  keeps_cache (render_directive env cfg d).
Proof.
  unfold render_directive.
  destruct (type d); try apply keeps_insert_equation;
    unfold _insert_figure, _insert_table_caption,
      _insert_algorithm_caption, _render_table_body, label_store;
    keep; try apply keeps_insert_lines; try apply keeps_insert_paragraph.
Qed.

Lemma keeps_turn env cfg lines dm i buf :
  keeps_cache (turn env cfg lines dm i buf).
Proof.
  unfold turn. keep;
    try apply keeps_flush_paragraph; try apply keeps_render_directive;
    try apply keeps_insert_paragraph.
Qed.

Lemma keeps_turns env cfg lines dm n :
  forall i buf, keeps_cache (turns env cfg lines dm n i buf).
Proof.
  induction n as [|n IH]; intros i buf; cbn [turns]; [keep|].
  destruct (decide (i < length lines)); [|keep].
  apply keeps_bind; [apply keeps_turn|intros; apply IH].
Qed.

Lemma keeps_render_markdown env cfg content :
  keeps_cache (_render_markdown env cfg content).
Proof.
  intros s. unfold _render_markdown.
  rewrite (NumberingProps.render_loop_turns _ _ _ _ _ _ _ _ (Nat.le_sub_l _ _)).
  revert s. apply keeps_bind; [apply keeps_turns|].
  intros r. apply keeps_flush_paragraph.
Qed.

(** X10: the conversion cache outlives builds and is never cleared or
    overwritten: an entry that is in the cache before a build, a
    failure included, is still there after it, whether the build
    succeeds or fails, and is what every later conversion of that
    formula returns, whatever the converter would answer then. *)
Theorem cache_entries_kept env cfg (content : string) (s : State)
        (latex : string) (cached : option Element) :
  _omml_cache s !! latex = Some cached ->
  let cache' := _omml_cache (build env cfg content s).2 in
  cache' !! latex = Some cached
  /\ forall env', latex_to_omml env' latex cache' = (cached, cache').
Proof.
  intros Hc cache'.
  assert (Hk : cache' !! latex = Some cached).
  { pose proof (keeps_render_markdown env cfg
                  (_strip_front_matter content) (reset s)) as Hsub.
    subst cache'. unfold build.
    destruct (_render_markdown env cfg _ (reset s)); cbn in Hsub |- *;
      eapply lookup_weaken; eauto. }
  split; [exact Hk|].
  intros env'. unfold latex_to_omml. now rewrite Hk.
Qed.

Lemma cache_entries_kept_witness :
  let s := set_cache {[ "x^2" := None ]} init in
  let cache' :=
    _omml_cache
      (build (converting_project "/proj") immediate
             ("<!-- equation: e | x^2 -->" +:+ nl +:+
              "<!-- equation: f | y -->") s).2 in
  cache' !! "x^2" = Some None
  /\ forall env', latex_to_omml env' "x^2" cache' = (None, cache').
Proof.
  intros s.
  apply (cache_entries_kept (converting_project "/proj") immediate _ s
           "x^2" None).
  reflexivity.
Defined.

End CacheMore.

(* ===================================================================== *)
(** * Tables, front matter and inline markup *)
(* ===================================================================== *)

Module TableMore.
Import Parser Docx DocxHelpers DocxEngine Props Notions.

(** A cell of a row is stripped and holds no bar. *)
Lemma row_cells_clean (row : string) :
  row_cells row <> []
  /\ Forall (fun c => Py.strip c = c /\ Py.count "|" c = 0) (row_cells row).
Proof.
  unfold row_cells. split.
  - pose proof (ParserProps.split_nonempty "|" (Py.strip_char "|" row)).
    destruct (Py.split "|" _); [congruence|discriminate].
  - apply Forall_fmap.
    eapply Forall_impl; [apply ScanProps.split_no_sep|].
    intros c Hc. cbn beta in Hc |- *.
    split; [apply StringMore.strip_by_idem|].
    pose proof (StringMore.count_strip "|"%char c) as Hs.
    rewrite Hc in Hs. now apply Nat.le_0_r in Hs.
Qed.

Lemma fit_clean (n : nat) (cells : list string) :
  Forall (fun c => Py.strip c = c /\ Py.count "|" c = 0) cells ->
  Forall (fun c => Py.strip c = c /\ Py.count "|" c = 0) (fit n cells).
Proof.
  intros H. unfold fit. apply Forall_take, Forall_app. split; [exact H|].
  apply Forall_replicate. split; reflexivity.
Qed.

(** X11: the table of a body is rectangular and clean: the header has
    at least one cell, every data row has exactly as many cells as the
    header, and every cell is stripped of white space at both ends and
    holds no bar. *)
Theorem table_rectangular (table_md : string) (header : list string)
        (rows : list (list string)) :
  table_cells table_md = Some (header, rows) ->
  1 <= length header
  /\ Forall (fun row => length row = length header) rows
  /\ Forall (fun c => Py.strip c = c /\ Py.count "|" c = 0)
            (header ++ concat rows).
Proof.
  unfold table_cells.
  destruct (length (table_lines table_md) <? 2); [discriminate|].
  intros [= <- <-].
  destruct (row_cells_clean (nth 0 (table_lines table_md) "")) as [Hne Hh].
  split; [destruct (row_cells _); [congruence|cbn; lia]|].
  split.
  - apply Forall_fmap, Forall_forall. intros l _. cbn.
    apply TableProps.length_fit.
  - apply Forall_app. split; [exact Hh|].
    apply Forall_concat, Forall_fmap, Forall_forall. intros l _. cbn.
    apply fit_clean, row_cells_clean.
Qed.

Lemma table_rectangular_witness :
  1 <= length ["a"; "b"]
  /\ Forall (fun row => length row = length ["a"; "b"]) [["1"; ""]; ["2"; "3"]]
  /\ Forall (fun c => Py.strip c = c /\ Py.count "|" c = 0)
            (["a"; "b"] ++ concat [["1"; ""]; ["2"; "3"]]).
Proof.
  apply (table_rectangular
           ("| a | b |" +:+ nl +:+ "|---|---|" +:+ nl +:+ "| 1 |" +:+ nl +:+
            "| 2 | 3 | 4 |")).
  vm_compute. reflexivity.
Defined.

End TableMore.

Module FrontMatterMore.
Import Parser Docx DocxHelpers DocxEngine Props Notions.

Lemma substring_all (s : string) :
  String.substring 0 (String.length s) s = s.
Proof. induction s as [|c s IH]; [reflexivity|]. cbn. now rewrite IH. Qed.

Lemma length_append (a b : string) :
  String.length (a +:+ b) = String.length a + String.length b.
Proof.
  induction a as [|c a IH]; [reflexivity|].
  change (String c a +:+ b) with (String c (a +:+ b)). cbn. now rewrite IH.
Qed.

(** The slice behind a prefix. *)
Lemma drop_append (a b : string) :
  Py.drop (String.length a) (a +:+ b) = b.
Proof.
  unfold Py.drop. rewrite length_append.
  replace (String.length a + String.length b - String.length a)
    with (String.length b) by lia.
  induction a as [|c a IH]; [apply substring_all|].
  change (String c a +:+ b) with (String c (a +:+ b)). exact IH.
Qed.

Lemma append_assoc (a b c : string) : (a +:+ b) +:+ c = a +:+ (b +:+ c).
Proof.
  induction a as [|x a IH]; [reflexivity|].
  change ((String x a +:+ b) +:+ c) with (String x ((a +:+ b) +:+ c)).
  now rewrite IH.
Qed.

Lemma append_nil (s : string) : "" +:+ s = s.
Proof. reflexivity. Qed.

Lemma append_cons (c : ascii) (a b : string) :
  String c a +:+ b = String c (a +:+ b).
Proof. reflexivity. Qed.

Lemma find_from_here (p s : string) (pos : nat) :
  String.prefix p s = true -> Py.find_from p s 0 pos = Some pos.
Proof. intros H. destruct s; cbn [Py.find_from]; now rewrite H. Qed.

(** The first closing marker behind metadata that holds none. *)
Lemma find_closing (meta rest : string) (pos : nat) :
  occurs closing meta = false ->
  Py.find_from closing (meta +:+ closing +:+ rest) 0 pos
  = Some (pos + String.length meta).
Proof.
  revert pos. induction meta as [|c meta IH]; intros pos H.
  - change ("" +:+ closing +:+ rest) with (closing +:+ rest).
    rewrite find_from_here
      by exact (StringMore.prefix_app closing closing rest eq_refl).
    cbn. f_equal. lia.
  - cbn [occurs] in H. apply orb_false_iff in H as [Hp Ho].
    change (String c meta +:+ closing +:+ rest)
      with (String c (meta +:+ closing +:+ rest)).
    cbn [Py.find_from].
    assert (Hpre : String.prefix closing
                     (String c (meta +:+ closing +:+ rest)) = false).
    { revert Hp. unfold closing. cbn [String.prefix].
      destruct (ascii_dec "010" c); [|reflexivity].
      destruct meta as [|c1 meta]; rewrite ?append_nil, ?append_cons;
        cbn [String.prefix];
        [intros _; now destruct (ascii_dec "-" "010")|].
      destruct (ascii_dec "-" c1); [|reflexivity].
      destruct meta as [|c2 meta]; rewrite ?append_nil, ?append_cons;
        cbn [String.prefix];
        [intros _; now destruct (ascii_dec "-" "010")|].
      destruct (ascii_dec "-" c2); [|reflexivity].
      destruct meta as [|c3 meta]; rewrite ?append_nil, ?append_cons;
        cbn [String.prefix];
        [intros _; now destruct (ascii_dec "-" "010")|].
      destruct (ascii_dec "-" c3); [|reflexivity].
      destruct meta; discriminate. }
    rewrite Hpre, IH by exact Ho. cbn. f_equal. lia.
Qed.

Lemma find_nowhere (p s : string) (pos : nat) :
  occurs p s = false -> Py.find_from p s 0 pos = None.
Proof.
  revert pos. induction s as [|c s IH]; intros pos H.
  - cbn in *. apply orb_false_iff in H as [-> _]. reflexivity.
  - cbn [occurs] in H. apply orb_false_iff in H as [Hp Ho].
    cbn [Py.find_from]. rewrite Hp. now apply IH.
Qed.

(** X12: front matter that is opened by three dashes and closed by the
    first newline followed by three dashes is cut off together with the
    newlines behind it, and nothing else of the text is touched;
    front matter that is never closed is left in the text. *)
Theorem front_matter_cut (meta rest : string) :
  occurs closing meta = false ->
  _strip_front_matter ("---" +:+ meta +:+ closing +:+ rest)
  = Py.lstrip_by (Ascii.eqb "010") rest
  /\ _strip_front_matter ("---" +:+ meta) = "---" +:+ meta.
Proof.
  intros H. unfold _strip_front_matter, Py.find. split.
  - unfold Py.startswith.
    rewrite (StringMore.prefix_app "---" "---" _ eq_refl).
    change (Py.find_from (String "010" "---")
              ("---" +:+ meta +:+ closing +:+ rest) 3 0)
      with (Py.find_from closing (meta +:+ closing +:+ rest) 0 3).
    rewrite find_closing by exact H. f_equal.
    replace (3 + String.length meta + 4)
      with (String.length ("---" +:+ meta +:+ closing))
      by (rewrite !length_append; cbn; lia).
    rewrite <- (drop_append ("---" +:+ meta +:+ closing) rest) at 2.
    now rewrite !append_assoc.
  - unfold Py.startswith.
    rewrite (StringMore.prefix_app "---" "---" _ eq_refl).
    change (Py.find_from (String "010" "---") ("---" +:+ meta) 3 0)
      with (Py.find_from closing meta 0 3).
    now rewrite find_nowhere.
Qed.

Lemma front_matter_cut_witness :
  _strip_front_matter
    ("---" +:+ (nl +:+ "title: T") +:+ closing +:+ (nl +:+ nl +:+ "# Head"))
  = "# Head"
  /\ _strip_front_matter ("---" +:+ (nl +:+ "title: T"))
     = "---" +:+ (nl +:+ "title: T").
Proof.
  apply (front_matter_cut (nl +:+ "title: T") (nl +:+ nl +:+ "# Head")).
  reflexivity.
Defined.

End FrontMatterMore.

Module MarkupMore.
Import Parser Docx DocxHelpers DocxEngine Props Notions FrontMatterMore.

Lemma unmarked_head (s : string) : unmarked s -> plain_head s.
Proof.
  destruct s as [|c s]; [easy|]. intros [H1 H2]. cbn in H1, H2 |- *.
  split; intros ->; discriminate.
Qed.

Lemma unmarked_tail c s : unmarked (String c s) -> unmarked s.
Proof.
  intros [H1 H2]. cbn in H1, H2. split; lia.
Qed.

(** No span starts at a character that is not a marker. *)
Lemma exec_markup_none {A} (s : string) (g : Re.groups) (k : Re.cont A) :
  plain_head s -> Re.exec markup_re s g k = None.
Proof.
  intros H. unfold markup_re. cbn [Re.exec Re.seq].
  destruct s as [|c s]; [reflexivity|]. destruct H as [H1 H2].
  cbn [String.prefix].
  destruct (ascii_dec "*" c) as [<-|_]; [congruence|].
  destruct (ascii_dec "`" c) as [<-|_]; [congruence|]. reflexivity.
Qed.

Lemma search_unmarked (pre s : string) :
  unmarked s -> Re.search_from markup_re pre s = None.
Proof.
  revert pre. induction s as [|c s IH]; intros pre H; cbn [Re.search_from];
    rewrite exec_markup_none by (now apply unmarked_head).
  - reflexivity.
  - apply IH. now apply unmarked_tail in H.
Qed.

Lemma split_unmarked (n : nat) (s : string) :
  unmarked s -> Re.split_from n markup_re s = [s].
Proof.
  intros H. destruct n; [reflexivity|]. cbn [Re.split_from].
  unfold Re.search. now rewrite search_unmarked.
Qed.

Lemma markup_run_plain (s : string) :
  plain_head s -> markup_run s = Run Plain s.
Proof.
  unfold markup_run, Py.startswith.
  destruct s as [|c s]; [reflexivity|]. intros [H1 H2].
  cbn [String.prefix].
  destruct (ascii_dec "*" c) as [<-|_]; [congruence|].
  destruct (ascii_dec "`" c) as [<-|_]; [congruence|]. reflexivity.
Qed.

(** X13: a text without a star and without a backtick is rendered as
    one run, unformatted, with the text as it is. *)
Theorem unmarked_text_one_run (text : string) :
  unmarked text -> _add_inline_markup text = [Run Plain text].
Proof.
  intros H. unfold _add_inline_markup, Re.split.
  rewrite split_unmarked by exact H. cbn [fmap list_fmap].
  now rewrite markup_run_plain by (now apply unmarked_head).
Qed.

Lemma unmarked_text_one_run_witness :
  _add_inline_markup "Plain text, no markers."
  = [Run Plain "Plain text, no markers."].
Proof.
  apply (unmarked_text_one_run "Plain text, no markers.").
  split; reflexivity.
Defined.

(** ** One formatted span *)

Lemma substring_prefix (a b : string) :
  String.substring 0 (String.length a) (a +:+ b) = a.
Proof.
  induction a as [|c a IH]; [destruct b; reflexivity|].
  rewrite append_cons. cbn. now rewrite IH.
Qed.

Lemma substring_skip (a b : string) (n : nat) :
  String.substring (String.length a) n (a +:+ b) = String.substring 0 n b.
Proof.
  induction a as [|c a IH]; [reflexivity|]. rewrite append_cons. exact IH.
Qed.

Lemma consumed_append (a b : string) : Re.consumed (a +:+ b) b = a.
Proof.
  unfold Re.consumed. rewrite length_append.
  replace (String.length a + String.length b - String.length b)
    with (String.length a) by lia.
  apply substring_prefix.
Qed.

Lemma endswith_append (a m : string) : Py.endswith m (a +:+ m) = true.
Proof.
  unfold Py.endswith. rewrite length_append.
  replace (String.length a + String.length m - String.length m)
    with (String.length a) by lia.
  rewrite substring_skip, substring_all, String.eqb_refl.
  rewrite andb_true_r. apply Nat.leb_le. lia.
Qed.

Lemma slice_inner_append (a inner b : string) :
  Py.slice_inner (String.length a) (String.length b) (a +:+ inner +:+ b)
  = inner.
Proof.
  unfold Py.slice_inner. rewrite !length_append.
  replace (String.length a + (String.length inner + String.length b)
           - String.length b - String.length a)
    with (String.length inner) by lia.
  rewrite substring_skip. apply substring_prefix.
Qed.

Lemma search_from_here (r : Re.regex) (pre s : string) (m : Re.found) :
  Re.exec r s ∅ (fun s' g => Some (Re.Found pre (Re.consumed s s') s' g))
  = Some m ->
  Re.search_from r pre s = Some m.
Proof. intros H. destruct s; cbn [Re.search_from]; now rewrite H. Qed.

(** The search goes over text without markers. *)
Lemma search_skip (pre rest : string) :
  unmarked pre ->
  forall p0,
    Re.search_from markup_re p0 (pre +:+ rest)
    = Re.search_from markup_re (p0 +:+ pre) rest.
Proof.
  induction pre as [|c pre IH]; intros H p0.
  - rewrite append_nil. f_equal.
    clear. induction p0 as [|x p0 IH]; [reflexivity|].
    rewrite append_cons. now rewrite <- IH.
  - rewrite append_cons. cbn [Re.search_from].
    rewrite exec_markup_none by (now apply unmarked_head in H).
    rewrite IH by (now apply unmarked_tail in H).
    now rewrite append_assoc.
Qed.

Lemma rep_cons {A} (p : ascii -> bool) (lo : nat) (c : ascii) (s : string)
      (k : string -> option A) :
  Re.rep true p lo None (String c s) k
  = match (if p c then Re.rep true p (pred lo) None s k else None) with
    | Some r => Some r
    | None => match lo with 0 => k (String c s) | S _ => None end
    end.
Proof. cbn. destruct (p c); reflexivity. Qed.

(** A greedy repetition takes all of a text of class characters in
    front of a character that is not of the class. *)
Lemma rep_takes_all {A} (p : ascii -> bool) (tail : string)
      (k : string -> option A) (x : A) :
  match tail with EmptyString => True | String c _ => p c = false end ->
  k tail = Some x ->
  forall inner lo,
    all_chars p inner = true -> lo <= String.length inner ->
    Re.rep true p lo None (inner +:+ tail) k = Some x.
Proof.
  intros Htail Hk. induction inner as [|c inner IH]; intros lo Hall Hlo.
  - rewrite append_nil. cbn in Hlo. replace lo with 0 by lia.
    destruct tail as [|c tail]; [cbn; now rewrite Hk|].
    rewrite rep_cons, Htail. exact Hk.
  - rewrite append_cons, rep_cons. cbn in Hall, Hlo.
    apply andb_true_iff in Hall as [-> Hall].
    rewrite IH by (assumption || lia). reflexivity.
Qed.

Lemma count_zero_class (ch : ascii) (s : string) :
  Py.count ch s = 0 -> all_chars (Re.not_chr ch) s = true.
Proof.
  induction s as [|c s IH]; [reflexivity|]. cbn. unfold Re.not_chr at 1.
  rewrite (Ascii.eqb_sym ch c).
  destruct (Ascii.eqb c ch); [intros H; discriminate H|].
  intros H. now rewrite IH.
Qed.

(** A marker, text without the marker character, the marker again. *)
Lemma exec_span {A} (m : string) (ch : ascii) (inner post : string)
      (g : Re.groups) (k : Re.cont A) (x : A) :
  match m with EmptyString => False | String c _ => c = ch end ->
  inner <> "" -> Py.count ch inner = 0 ->
  k post g = Some x ->
  Re.exec (Re.seq [Re.Lit m; Re.plus (Re.not_chr ch); Re.Lit m])
          (m +:+ inner +:+ m +:+ post) g k
  = Some x.
Proof.
  intros Hm Hne Hc Hk. cbn [Re.seq Re.exec]. unfold Re.plus.
  rewrite (StringMore.prefix_app m m)
    by (clear; induction m as [|c m IH]; [reflexivity|];
        cbn; destruct (ascii_dec c c); [exact IH|congruence]).
  rewrite drop_append.
  apply rep_takes_all.
  - destruct m as [|c m]; [easy|]. subst c. rewrite append_cons.
    unfold Re.not_chr. now rewrite Ascii.eqb_refl.
  - cbn [Re.exec].
    rewrite (StringMore.prefix_app m m)
      by (clear; induction m as [|c m IH]; [reflexivity|];
          cbn; destruct (ascii_dec c c); [exact IH|congruence]).
    now rewrite drop_append.
  - now apply count_zero_class.
  - destruct inner; [congruence|cbn; lia].
Qed.

(** The match of the markup pattern at the start of a span. *)
Lemma exec_markup_span (f : Format) (inner post pre : string) :
  f <> Plain -> inner <> "" -> closes_late f inner ->
  let s := marker f +:+ inner +:+ marker f +:+ post in
  Re.exec markup_re s ∅
          (fun s' g => Some (Re.Found pre (Re.consumed s s') s' g))
  = Some (Re.Found pre (marker f +:+ inner +:+ marker f) post
                   {[ 1 := marker f +:+ inner +:+ marker f ]}).
Proof.
  intros Hf Hne Hlate s.
  assert (Hcons : Re.consumed s post = marker f +:+ inner +:+ marker f).
  { subst s. rewrite <- (consumed_append (marker f +:+ inner +:+ marker f) post).
    now rewrite !append_assoc. }
  unfold markup_re. cbn [Re.exec].
  destruct f; [congruence| | |]; unfold closes_late in Hlate.
  - (* bold *)
    rewrite (exec_span "**" "*" inner post ∅ _
               (Re.Found pre (marker Bold +:+ inner +:+ marker Bold) post
                         {[ 1 := marker Bold +:+ inner +:+ marker Bold ]}));
      try easy.
    rewrite Hcons. reflexivity.
  - (* italic *)
    assert (Hbold : forall k : Re.cont Re.found,
              Re.exec (Re.seq [Re.Lit "**"; Re.plus (Re.not_chr "*");
                               Re.Lit "**"]) s ∅ k = None).
    { intros k. subst s. cbn [Re.seq Re.exec marker].
      destruct inner as [|c inner]; [congruence|].
      rewrite !append_cons, append_nil. cbn [String.prefix].
      destruct (ascii_dec "*" "*"); [|congruence].
      cbn in Hlate. destruct (ascii_dec "*" c) as [<-|_]; [discriminate|].
      reflexivity. }
    rewrite Hbold.
    rewrite (exec_span "*" "*" inner post ∅ _
               (Re.Found pre (marker Italic +:+ inner +:+ marker Italic) post
                         {[ 1 := marker Italic +:+ inner +:+ marker Italic ]}));
      try easy.
    rewrite Hcons. reflexivity.
  - (* code *)
    assert (Hbold : forall k : Re.cont Re.found,
              Re.exec (Re.seq [Re.Lit "**"; Re.plus (Re.not_chr "*");
                               Re.Lit "**"]) s ∅ k = None).
    { intros k. subst s. cbn [Re.seq Re.exec marker].
      rewrite !append_cons. cbn [String.prefix].
      destruct (ascii_dec "*" "`"); [discriminate|reflexivity]. }
    assert (Hital : forall k : Re.cont Re.found,
              Re.exec (Re.seq [Re.Lit "*"; Re.plus (Re.not_chr "*");
                               Re.Lit "*"]) s ∅ k = None).
    { intros k. subst s. cbn [Re.seq Re.exec marker].
      rewrite !append_cons. cbn [String.prefix].
      destruct (ascii_dec "*" "`"); [discriminate|reflexivity]. }
    rewrite Hbold, Hital.
    rewrite (exec_span "`" "`" inner post ∅ _
               (Re.Found pre (marker Code +:+ inner +:+ marker Code) post
                         {[ 1 := marker Code +:+ inner +:+ marker Code ]}));
      try easy.
    rewrite Hcons. reflexivity.
Qed.

(** The run of a span. *)
Lemma markup_run_span (f : Format) (inner : string) :
  f <> Plain -> inner <> "" -> closes_late f inner ->
  markup_run (marker f +:+ inner +:+ marker f) = Run f inner.
Proof.
  intros Hf Hne Hlate. unfold markup_run, Py.startswith.
  destruct inner as [|c inner]; [congruence|].
  destruct f; [congruence| | |]; unfold closes_late in Hlate;
    cbn [marker].
  - rewrite (StringMore.prefix_app "**" "**" _ eq_refl).
    rewrite <- append_assoc, endswith_append, append_assoc. cbn [andb].
    f_equal. exact (slice_inner_append "**" (String c inner) "**").
  - assert (Hnb : String.prefix "**" ("*" +:+ String c inner +:+ "*")
                  = false).
    { rewrite !append_cons, append_nil. cbn [String.prefix].
      destruct (ascii_dec "*" "*"); [|congruence].
      cbn in Hlate. destruct (ascii_dec "*" c) as [<-|_]; [discriminate|].
      reflexivity. }
    rewrite Hnb. cbn [andb].
    rewrite (StringMore.prefix_app "*" "*" _ eq_refl).
    rewrite <- append_assoc, endswith_append, append_assoc. cbn [andb].
    f_equal. exact (slice_inner_append "*" (String c inner) "*").
  - assert (Hnb : String.prefix "**" ("`" +:+ String c inner +:+ "`")
                  = false).
    { rewrite !append_cons. cbn [String.prefix].
      destruct (ascii_dec "*" "`"); [discriminate|reflexivity]. }
    assert (Hni : String.prefix "*" ("`" +:+ String c inner +:+ "`")
                  = false).
    { rewrite !append_cons. cbn [String.prefix].
      destruct (ascii_dec "*" "`"); [discriminate|reflexivity]. }
    rewrite Hnb, Hni. cbn [andb].
    rewrite (StringMore.prefix_app "`" "`" _ eq_refl).
    rewrite <- append_assoc, endswith_append, append_assoc. cbn [andb].
    f_equal. exact (slice_inner_append "`" (String c inner) "`").
Qed.

(** X14: one span of bold, italic or code between texts without
    markers gives three runs: the text in front, the text of the span
    in its format with the markers taken off, and the text behind.
    The span is not empty and does not hold the character of its own
    marker. *)
Theorem span_rendered (f : Format) (pre inner post : string) :
  f <> Plain -> unmarked pre -> unmarked post ->
  inner <> "" -> closes_late f inner ->
  _add_inline_markup (pre +:+ marker f +:+ inner +:+ marker f +:+ post)
  = [Run Plain pre; Run f inner; Run Plain post].
Proof.
  intros Hf Hpre Hpost Hne Hlate. unfold _add_inline_markup, Re.split.
  assert (Hlen :
    0 < String.length (pre +:+ marker f +:+ inner +:+ marker f +:+ post)).
  { rewrite !length_append. destruct inner; [congruence|].
    cbn [String.length]. lia. }
  destruct (String.length _) as [|n]; [lia|].
  cbn [Re.split_from]. unfold Re.search.
  rewrite search_skip by exact Hpre. rewrite append_nil.
  rewrite (search_from_here _ _ _ _
             (exec_markup_span f inner post pre Hf Hne Hlate)).
  cbn [Re.before Re.matched Re.after].
  rewrite split_unmarked by exact Hpost. cbn [fmap list_fmap].
  rewrite markup_run_span by assumption.
  now rewrite !markup_run_plain by (now apply unmarked_head).
Qed.

Lemma span_rendered_witness :
  _add_inline_markup ("see " +:+ marker Bold +:+ "this" +:+ marker Bold
                      +:+ " now")
  = [Run Plain "see "; Run Bold "this"; Run Plain " now"].
Proof.
  apply (span_rendered Bold "see " "this" " now").
  - discriminate.
  - split; reflexivity.
  - split; reflexivity.
  - discriminate.
  - reflexivity.
Defined.

End MarkupMore.
